(** * The DNS wire-format decoder of the collector (dnsutils/dns.go) and the
    drop gates of its filtering stage (subprocessors/filtering.go).

    Conventions of the embedding.
    - A Go [int] is a [Z]; the decoder only adds small constants to offsets
      that are bounded by the length of a packet, so no 64-bit wrap-around
      is reachable and none is written out.  Values of type [uint16] and
      [uint32] are [Z] in their range, with the masks and shifts of the
      source kept as [Z.land], [Z.shiftr], [Z.shiftl] and [Z.lor].
    - A Go [[]byte] is a [slice]: the bytes from the start of the slice to the
      end of its backing array, with the length of the slice.  An index
      expression is checked against the length, a slice expression against
      the capacity, as in Go.  The packet handed to the decoder is a buffer
      holding exactly the message: it is a [list byte], its capacity is its
      length ([whole]).
    - A Go function returns its tuple, with [None] for a [nil] error.  A
      computation is a [run]: it returns ([Done]), stops with a run-time
      panic (index or slice bound out of range, [Panic]), or exhausts the
      fuel of the model ([OutOfFuel]). *)

From Stdlib Require Import ZArith Lia Bool.
From Stdlib Require Import Strings.String Strings.Byte Strings.Ascii.
From Stdlib Require Import DecimalString HexadecimalString.
From stdpp Require Import gmap strings list fin_maps.

Local Open Scope string_scope.
Local Open Scope Z_scope.

(** ** Errors and computations *)

Inductive error : Type :=
| ErrDecodeDnsHeaderTooShort
| ErrDecodeDnsLabelInvalidOffset
| ErrDecodeDnsLabelInvalidOffsetInfiniteLoop
| ErrDecodeDnsLabelTooShort
| ErrDecodeQuestionQtypeTooShort
| ErrDecodeDnsAnswerTooShort
| ErrDecodeDnsAnswerRdataTooShort.

Inductive run (A : Type) : Type :=
| Done (a : A)
| Panic
| OutOfFuel.

Arguments Done {A} a.
Arguments Panic {A}.
Arguments OutOfFuel {A}.

#[global] Instance run_ret : MRet run := fun A a => Done a.

#[global] Instance run_bind : MBind run := fun A B f m =>
  match m with
  | Done a => f a
  | Panic => Panic
  | OutOfFuel => OutOfFuel
  end.

#[global] Instance run_fmap : FMap run := fun A B f m =>
  match m with
  | Done a => Done (f a)
  | Panic => Panic
  | OutOfFuel => OutOfFuel
  end.

(** A run-time check of Go: [None] is the panic. *)
Definition must {A : Type} (o : option A) : run A :=
  match o with
  | Some a => Done a
  | None => Panic
  end.

(** ** Bytes and slices *)

Abbreviation len l := (Z.of_nat (length l)).

Definition b2z (b : byte) : Z := Z.of_N (Byte.to_N b).

Record slice : Type := Slice { backing : list byte; slen : Z }.

Definition cap (s : slice) : Z := len (backing s).

Definition whole (payload : list byte) : slice := Slice payload (len payload).

(** [s[i]] *)
Definition s_index (s : slice) (i : Z) : option Z :=
  if (0 <=? i) && (i <? slen s)
  then b2z <$> backing s !! Z.to_nat i
  else None.

(** [s[lo:hi]] *)
Definition s_slice (s : slice) (lo hi : Z) : option slice :=
  if (0 <=? lo) && (lo <=? hi) && (hi <=? cap s)
  then Some (Slice (drop (Z.to_nat lo) (backing s)) (hi - lo))
  else None.

(** [s[lo:]] *)
Definition s_from (s : slice) (lo : Z) : option slice :=
  if (0 <=? lo) && (lo <=? slen s)
  then Some (Slice (drop (Z.to_nat lo) (backing s)) (slen s - lo))
  else None.

(** The bytes of a slice, for [string(s)] and for ranging over it. *)
Definition s_bytes (s : slice) : list byte := take (Z.to_nat (slen s)) (backing s).

(** The same three expressions on the packet. *)
Definition index (payload : list byte) (i : Z) : option Z := s_index (whole payload) i.
Definition slice_of (payload : list byte) (lo hi : Z) : option slice := s_slice (whole payload) lo hi.
Definition slice_from (payload : list byte) (lo : Z) : option slice := s_from (whole payload) lo.

(** [binary.BigEndian.Uint16(b)]: [_ = b[1]] and then
    [uint16(b[1]) | uint16(b[0])<<8]. *)
Definition Uint16 (b : slice) : option Z :=
  b1 ← s_index b 1;
  b0 ← s_index b 0;
  Some (Z.lor b1 (Z.shiftl b0 8)).

(** [binary.BigEndian.Uint32(b)]. *)
Definition Uint32 (b : slice) : option Z :=
  b3 ← s_index b 3;
  b0 ← s_index b 0;
  b1 ← s_index b 1;
  b2 ← s_index b 2;
  Some (Z.lor (Z.lor (Z.lor b3 (Z.shiftl b2 8)) (Z.shiftl b1 16)) (Z.shiftl b0 24)).

(** [binary.BigEndian.Uint16(payload[lo:hi])] *)
Definition be16 (payload : list byte) (lo hi : Z) : run Z :=
  s ← must (slice_of payload lo hi);
  must (Uint16 s).

(** [binary.BigEndian.Uint32(payload[lo:hi])] *)
Definition be32 (payload : list byte) (lo hi : Z) : run Z :=
  s ← must (slice_of payload lo hi);
  must (Uint32 s).

(** ** Strings *)

(** [strings.Join] *)
Definition Join (elems : list string) (sep : string) : string := String.concat sep elems.

(** [strconv.Itoa] and the verb [%d]. *)
Definition Itoa (z : Z) : string := DecimalString.NilZero.string_of_int (Z.to_int z).

(** The verb [%x] on an unsigned value. *)
Definition hex (z : Z) : string :=
  HexadecimalString.NilZero.string_of_uint (N.to_hex_uint (Z.to_N z)).

(** [int32(u)] of a [uint32]. *)
Definition int32 (u : Z) : Z := if u <? 2147483648 then u else u - 4294967296.

(** ** The lookup tables *)

Definition DnsLen : Z := 12.

Definition Rdatatypes : gmap Z string := list_to_map
  [ (0, "NONE"); (1, "A"); (2, "NS"); (3, "MD"); (4, "MF"); (5, "CNAME");
    (6, "SOA"); (7, "MB"); (8, "MG"); (9, "MR"); (10, "NULL"); (11, "WKS");
    (12, "PTR"); (13, "HINFO"); (14, "MINFO"); (15, "MX"); (16, "TXT");
    (17, "RP"); (18, "AFSDB"); (19, "X25"); (20, "ISDN"); (21, "RT");
    (22, "NSAP"); (23, "NSAP_PTR"); (24, "SIG"); (25, "KEY"); (26, "PX");
    (27, "GPOS"); (28, "AAAA"); (29, "LOC"); (30, "NXT"); (33, "SRV");
    (35, "NAPTR"); (36, "KX"); (37, "CERT"); (38, "A6"); (39, "DNAME");
    (41, "OPT"); (42, "APL"); (43, "DS"); (44, "SSHFP"); (45, "IPSECKEY");
    (46, "RRSIG"); (47, "NSEC"); (48, "DNSKEY"); (49, "DHCID"); (50, "NSEC3");
    (51, "NSEC3PARAM"); (52, "TSLA"); (53, "SMIMEA"); (55, "HIP");
    (56, "NINFO"); (59, "CDS"); (60, "CDNSKEY"); (61, "OPENPGPKEY");
    (62, "CSYNC"); (64, "SVCB"); (65, "HTTPS"); (99, "SPF"); (103, "UNSPEC");
    (108, "EUI48"); (109, "EUI64"); (249, "TKEY"); (250, "TSIG");
    (251, "IXFR"); (252, "AXFR"); (253, "MAILB"); (254, "MAILA");
    (255, "ANY"); (256, "URI"); (257, "CAA"); (258, "AVC");
    (259, "AMTRELAY"); (32768, "TA"); (32769, "DLV") ].

Definition Rcodes : gmap Z string := list_to_map
  [ (0, "NOERROR"); (1, "FORMERR"); (2, "SERVFAIL"); (3, "NXDOMAIN");
    (4, "NOIMP"); (5, "REFUSED"); (6, "YXDOMAIN"); (7, "YXRRSET");
    (8, "NXRRSET"); (9, "NOTAUTH"); (10, "NOTZONE"); (11, "DSOTYPENI");
    (16, "BADSIG"); (17, "BADKEY"); (18, "BADTIME"); (19, "BADMODE");
    (20, "BADNAME"); (21, "BADALG"); (22, "BADTRUNC"); (23, "BADCOOKIE") ].

Definition RdatatypeToString (rrtype : Z) : string :=
  match Rdatatypes !! rrtype with
  | Some value => value
  | None => "UNKNOWN"
  end.

Definition RcodeToString (rcode : Z) : string :=
  match Rcodes !! rcode with
  | Some value => value
  | None => "UNKNOWN"
  end.

Arguments RdatatypeToString : simpl never.
Arguments RcodeToString : simpl never.

(** ** The header *)

Record DnsHeader : Type := mkDnsHeader {
  Id : Z;
  Qr : Z;
  Opcode : Z;
  Aa : Z;
  Tc : Z;
  Rd : Z;
  Ra : Z;
  Z_ : Z;
  Ad : Z;
  Cd : Z;
  Rcode : Z;
  Qdcount : Z;
  Ancount : Z;
  Nscount : Z;
  Arcount : Z
}.

(** [DnsHeader{}] *)
Definition zeroDnsHeader : DnsHeader := mkDnsHeader 0 0 0 0 0 0 0 0 0 0 0 0 0 0 0.

Definition DecodeDns (payload : list byte) : run (DnsHeader * option error) :=
  let dh := zeroDnsHeader in
  if len payload <? DnsLen then Done (dh, Some ErrDecodeDnsHeaderTooShort) else
  id ← be16 payload 0 2;
  qr ← (fun w => Z.shiftr w 0xF) <$> be16 payload 2 4;
  opcode ← (fun w => Z.land (Z.shiftr w (3 + 0x8)) 0xF) <$> be16 payload 2 4;
  aa ← (fun w => Z.land (Z.shiftr w (2 + 0x8)) 1) <$> be16 payload 2 4;
  tc ← (fun w => Z.land (Z.shiftr w (1 + 0x8)) 1) <$> be16 payload 2 4;
  rd ← (fun w => Z.land (Z.shiftr w 0x8) 1) <$> be16 payload 2 4;
  cd ← (fun w => Z.land (Z.shiftr w 4) 1) <$> be16 payload 2 4;
  ad ← (fun w => Z.land (Z.shiftr w 5) 1) <$> be16 payload 2 4;
  z ← (fun w => Z.land (Z.shiftr w 6) 1) <$> be16 payload 2 4;
  ra ← (fun w => Z.land (Z.shiftr w 7) 1) <$> be16 payload 2 4;
  rcode ← (fun w => Z.land w 0xF) <$> be16 payload 2 4;
  qdcount ← be16 payload 4 6;
  ancount ← be16 payload 6 8;
  nscount ← be16 payload 8 10;
  arcount ← be16 payload 10 12;
  Done (mkDnsHeader id qr opcode aa tc rd ra z ad cd rcode
                    qdcount ancount nscount arcount, None).

(** ** Names: labels and compression pointers *)

(** [string(b)] of a byte slice. *)
Definition string_of (s : slice) : string := string_of_list_byte (s_bytes s).

(** The loop of [_ParseLabels].  [follow] is the recursive call
    [_ParseLabels(int(ptr), payload, pointers)].  The map [pointers] is shared
    by reference in the source; an activation updates it once, just before
    its only recursive call, and never reads it again after that call, so
    the updated map is handed down.  An iteration that does not leave the
    loop moves [offset] forward, so [n] counts the iterations left. *)
Fixpoint labels_loop (follow : Z -> gmap Z Z -> run (string * Z * option error))
    (payload : list byte) (pointers : gmap Z Z)
    (n : nat) (offset : Z) (labels : list string)
    : run (string * Z * option error) :=
  match n with
  | O => OutOfFuel
  | S n' =>
    if offset >=? len payload
    then Done ("", 0, Some ErrDecodeDnsLabelInvalidOffset)
    else
      length' ← must (index payload offset);
      if length' =? 0 then Done (Join labels ".", offset + 1, None)
      else if Z.shiftr length' 6 =? 3 then
        w ← be16 payload offset (offset + 2);
        let ptr := Z.land w 16383 in
        match pointers !! ptr with
        | Some _ => Done ("", 0, Some ErrDecodeDnsLabelInvalidOffsetInfiniteLoop)
        | None =>
          '(label, _, err) ← follow ptr (<[ptr := 1]> pointers);
          match err with
          | Some e => Done ("", 0, Some e)
          | None => Done (Join (labels ++ [label]) ".", offset + 2, None)
          end
        end
      else if offset + length' + 1 >=? len payload
      then Done ("", 0, Some ErrDecodeDnsLabelTooShort)
      else
        label ← must (slice_of payload (offset + 1) (offset + length' + 1));
        labels_loop follow payload pointers n' (offset + length' + 1)
                    (labels ++ [string_of label])
  end.

(** [depth] bounds the nesting of the recursive calls. *)
Fixpoint _ParseLabels (depth : nat) (offset : Z) (payload : list byte)
    (pointers : gmap Z Z) : run (string * Z * option error) :=
  match depth with
  | O => OutOfFuel
  | S depth' =>
    labels_loop (fun ptr ptrs => _ParseLabels depth' ptr payload ptrs)
                payload pointers (S (length payload)) offset []
  end.

(** A pointer has 14 bits: at most 16384 targets can be marked, and every
    recursive call marks a new one. *)
Definition pointer_targets : Z := 16384.

Definition ParseLabels (offset : Z) (payload : list byte)
    : run (string * Z * option error) :=
  let ptrs : gmap Z Z := ∅ in
  _ParseLabels (S (Z.to_nat pointer_targets)) offset payload ptrs.

Arguments _ParseLabels : simpl never.
Arguments ParseLabels : simpl never.

(** ** The question *)

Definition DecodeQuestion (payload : list byte) : run (string * Z * Z * option error) :=
  '(qname, offset, err) ← ParseLabels DnsLen payload;
  match err with
  | Some e => Done ("", 0, 0, Some e)
  | None =>
    rest ← must (slice_from payload offset);
    if slen rest <? 4 then Done ("", 0, 0, Some ErrDecodeQuestionQtypeTooShort)
    else
      qtype ← be16 payload offset (offset + 2);
      Done (qname, qtype, offset + 4, None)
  end.

(** ** Resource data *)

Definition ParseA (r : slice) : run (string * option error) :=
  let ip := (fun b => Itoa (b2z b)) <$> s_bytes r in
  Done (Join ip ".", None).

(** The loop of [ParseAAAA]: [i] grows by 2 up to [len(rdata)]. *)
Fixpoint ParseAAAA_loop (rdata : slice) (n : nat) (i : Z) (ip : list string)
    : run (list string) :=
  if i <? slen rdata then
    match n with
    | O => OutOfFuel
    | S n' =>
      s ← must (s_slice rdata i (i + 2));
      w ← must (Uint16 s);
      ParseAAAA_loop rdata n' (i + 2) (ip ++ [hex w])
    end
  else Done ip.

Definition ParseAAAA (rdata : slice) : run (string * option error) :=
  ip ← ParseAAAA_loop rdata (Z.to_nat (slen rdata)) 0 [];
  Done (Join ip ":", None).

Definition ParseCNAME (rdata_offset : Z) (payload : list byte) : run (string * option error) :=
  '(cname, _, err) ← ParseLabels rdata_offset payload;
  match err with
  | Some e => Done ("", Some e)
  | None => Done (cname, None)
  end.

Definition ParseMX (rdata_offset : Z) (payload : list byte) : run (string * option error) :=
  pref ← be16 payload rdata_offset (rdata_offset + 2);
  '(host, _, err) ← ParseLabels (rdata_offset + 2) payload;
  match err with
  | Some e => Done ("", Some e)
  | None => Done (Itoa pref ++ " " ++ host, None)%string
  end.

Definition ParseSRV (rdata_offset : Z) (payload : list byte) : run (string * option error) :=
  priority ← be16 payload rdata_offset (rdata_offset + 2);
  weight ← be16 payload (rdata_offset + 2) (rdata_offset + 4);
  port ← be16 payload (rdata_offset + 4) (rdata_offset + 6);
  '(target, _, err) ← ParseLabels (rdata_offset + 6) payload;
  match err with
  | Some e => Done ("", Some e)
  | None =>
    Done (Itoa priority ++ " " ++ Itoa weight ++ " " ++ Itoa port ++ " " ++ target, None)%string
  end.

Definition ParseNS (rdata_offset : Z) (payload : list byte) : run (string * option error) :=
  '(ns, _, err) ← ParseLabels rdata_offset payload;
  match err with
  | Some e => Done ("", Some e)
  | None => Done (ns, None)
  end.

Definition ParseTXT (rdata : slice) : run (string * option error) :=
  length' ← must (s_index rdata 0);
  txt ← must (s_slice rdata 1 (length' + 1));
  Done (string_of txt, None).

Definition ParsePTR (rdata_offset : Z) (payload : list byte) : run (string * option error) :=
  '(ptr, _, err) ← ParseLabels rdata_offset payload;
  match err with
  | Some e => Done ("", Some e)
  | None => Done (ptr, None)
  end.

Definition ParseSOA (rdata_offset : Z) (payload : list byte) : run (string * option error) :=
  '(primaryNS, offset, err) ← ParseLabels rdata_offset payload;
  match err with
  | Some e => Done ("", Some e)
  | None =>
    '(respMailbox, offset, err) ← ParseLabels offset payload;
    match err with
    | Some e => Done ("", Some e)
    | None =>
      rdata ← must (slice_from payload offset);
      serial ← must (s_slice rdata 0 4 ≫= Uint32);
      refresh ← int32 <$> must (s_slice rdata 4 8 ≫= Uint32);
      retry ← int32 <$> must (s_slice rdata 8 12 ≫= Uint32);
      expire ← int32 <$> must (s_slice rdata 12 16 ≫= Uint32);
      minimum ← must (s_slice rdata 16 20 ≫= Uint32);
      Done (primaryNS ++ " " ++ respMailbox ++ " " ++ Itoa serial ++ " "
            ++ Itoa refresh ++ " " ++ Itoa retry ++ " " ++ Itoa expire ++ " "
            ++ Itoa minimum, None)%string
    end
  end.

Definition ParseRdata (rdatatype : string) (rdata : slice) (payload : list byte)
    (rdata_offset : Z) : run (string * option error) :=
  if String.eqb rdatatype "A" then ParseA rdata
  else if String.eqb rdatatype "AAAA" then ParseAAAA rdata
  else if String.eqb rdatatype "CNAME" then ParseCNAME rdata_offset payload
  else if String.eqb rdatatype "MX" then ParseMX rdata_offset payload
  else if String.eqb rdatatype "SRV" then ParseSRV rdata_offset payload
  else if String.eqb rdatatype "NS" then ParseNS rdata_offset payload
  else if String.eqb rdatatype "TXT" then ParseTXT rdata
  else if String.eqb rdatatype "PTR" then ParsePTR rdata_offset payload
  else if String.eqb rdatatype "SOA" then ParseSOA rdata_offset payload
  else Done ("-", None).

Arguments ParseRdata : simpl never.

(** ** The answer section *)

Record DnsAnswer : Type := mkDnsAnswer {
  Name : string;
  Rdatatype : string;
  Class : Z;
  Ttl : Z;
  Rdata : string
}.

(** The loop of [DecodeAnswer]; [n] is the number of iterations left,
    [ancount - i]. *)
Fixpoint DecodeAnswer_loop (payload : list byte) (n : nat) (offset : Z)
    (answers : list DnsAnswer) : run (list DnsAnswer * Z * option error) :=
  match n with
  | O => Done (answers, offset, None)
  | S n' =>
    '(name, offset_next, err) ← ParseLabels offset payload;
    match err with
    | Some e => Done (answers, offset, Some e)
    | None =>
      rest ← must (slice_from payload offset_next);
      if slen rest <? 10 then Done (answers, offset, Some ErrDecodeDnsAnswerTooShort)
      else
        t ← be16 payload offset_next (offset_next + 2);
        class ← be16 payload (offset_next + 2) (offset_next + 4);
        ttl ← be32 payload (offset_next + 4) (offset_next + 8);
        rdlength ← be16 payload (offset_next + 8) (offset_next + 10);
        rest' ← must (slice_from payload (offset_next + 10));
        if slen rest' <? rdlength
        then Done (answers, offset, Some ErrDecodeDnsAnswerRdataTooShort)
        else
          rdata ← must (slice_of payload (offset_next + 10) (offset_next + 10 + rdlength));
          if t =? 41 then DecodeAnswer_loop payload n' offset answers
          else
            let rdatatype := RdatatypeToString t in
            '(parsed, err) ← ParseRdata rdatatype rdata payload (offset_next + 10);
            match err with
            | Some e => Done (answers, offset, Some e)
            | None =>
              let a := mkDnsAnswer name rdatatype class ttl parsed in
              DecodeAnswer_loop payload n' (offset_next + 10 + rdlength) (answers ++ [a])
            end
    end
  end.

Definition DecodeAnswer (ancount start_offset : Z) (payload : list byte)
    : run (list DnsAnswer * Z * option error) :=
  DecodeAnswer_loop payload (Z.to_nat ancount) start_offset [].

(** ** The filtering stage *)

Section Filtering.

(** [*regexp.Regexp] and its method [MatchString], from the Go library. *)
Variable regexp : Type.
Variable MatchString : regexp -> string -> bool.

(** The constants [dnsutils.DnsQuery] and [dnsutils.DnsReply]. *)
Variables DnsQuery DnsReply : string.

(** [config.Subprocessors.Filtering], the fields read by [CheckIfDrop]. *)
Record FilteringConfig : Type := mkFilteringConfig {
  LogQueries : bool;
  LogReplies : bool;
  DropRcodes : list string
}.

(** [dnsutils.DnsMessage], the fields read by [CheckIfDrop]:
    [DNS.Type], [DNS.Rcode], [DNS.Qname] and [NetworkInfo.QueryIp]. *)
Record DnsMessage : Type := mkDnsMessage {
  DNS_Type : string;
  DNS_Rcode : string;
  DNS_Qname : string;
  NetworkInfo_QueryIp : string
}.

Record FilteringProcessor : Type := mkFilteringProcessor {
  config : FilteringConfig;
  dropDomains : bool;
  listQueryIp : gmap string bool;
  listFqdns : gmap string bool;
  listDomainsRegex : gmap string regexp
}.

(** A [range] over a map that returns on the first hit: the order of the
    iteration does not change the result. *)
Definition CheckIfDrop (p : FilteringProcessor) (dm : DnsMessage) : bool :=
  if negb (LogQueries (config p)) && String.eqb (DNS_Type dm) DnsQuery then true
  else if negb (LogReplies (config p)) && String.eqb (DNS_Type dm) DnsReply then true
  else if existsb (fun v => String.eqb v (DNS_Rcode dm)) (DropRcodes (config p)) then true
  else if (0 <? Z.of_nat (size (listQueryIp p)))
          && existsb (fun kv => String.eqb (NetworkInfo_QueryIp dm) (fst kv))
                     (map_to_list (listQueryIp p)) then true
  else if dropDomains p then
    if existsb (fun kv => String.eqb (DNS_Qname dm) (fst kv)) (map_to_list (listFqdns p))
    then true
    else if existsb (fun kv => MatchString (snd kv) (DNS_Qname dm))
                    (map_to_list (listDomainsRegex p)) then true
    else false
  else false.

End Filtering.

Arguments mkFilteringProcessor {regexp}.
Arguments config {regexp}.
Arguments dropDomains {regexp}.
Arguments listQueryIp {regexp}.
Arguments listFqdns {regexp}.
Arguments listDomainsRegex {regexp}.
Arguments CheckIfDrop {regexp}.

(** ** The wire format of a name, to state what the resolver does *)

(** Where a name goes on after the element at offset [o]: nowhere after the
    terminating zero or outside the packet; at the 14-bit target of a
    compression pointer (a first byte with both top bits set, followed by a
    second byte); after the bytes of a literal label that the packet holds. *)
Definition pointer_target (l b : Z) : Z := (l - 192) * 256 + b.

Definition successor (payload : list byte) (o : Z) : option Z :=
  match index payload o with
  | None => None
  | Some l =>
    if l =? 0 then None
    else if 192 <=? l then
      match index payload (o + 1) with
      | Some b => Some (pointer_target l b)
      | None => None
      end
    else if o + l + 1 <=? len payload then Some (o + l + 1)
    else None
  end.

(** The offset reached from [o] after [n] elements, if the name goes that far. *)
Fixpoint walk (payload : list byte) (n : nat) (o : Z) : option Z :=
  match n with
  | O => Some o
  | S n' =>
    match successor payload o with
    | Some o' => walk payload n' o'
    | None => None
    end
  end.

(** The name at [o] runs into a cycle: it reaches an offset [a] from which it
    comes back to [a]. *)
Definition cyclic (payload : list byte) (o : Z) : Prop :=
  exists (k j : nat) (a : Z),
    walk payload k o = Some a /\ walk payload (S j) a = Some a.

(** The name at [o] reaches its terminating zero byte after [n] elements. *)
Definition ends_after (payload : list byte) (n : nat) (o : Z) : Prop :=
  exists a : Z, walk payload n o = Some a /\ index payload a = Some 0.

(** The name at [o] stops after finitely many elements. *)
Definition stops (payload : list byte) (o : Z) : Prop :=
  exists n : nat, walk payload n o = None.

(** The name at [o] reaches a pointer whose first byte is the last byte of
    the packet. *)
Definition reaches_cut_pointer (payload : list byte) (o : Z) : Prop :=
  exists (n : nat) (o' l : Z),
    walk payload n o = Some o' /\ index payload o' = Some l /\ 192 <= l /\
    o' + 1 = len payload.

(** Every marked pointer target is a 14-bit value. *)
Definition marks_in_range (pointers : gmap Z Z) : Prop :=
  forall k : Z, is_Some (pointers !! k) -> 0 <= k < pointer_targets.

(** Every marked pointer target is at least [n] elements away from the end
    of its name, if it reaches one. *)
Definition marks_behind (payload : list byte) (pointers : gmap Z Z) (n : nat) : Prop :=
  forall (t : Z) (m : nat),
    is_Some (pointers !! t) -> ends_after payload m t -> (n <= m)%nat.

(** ** One iteration of the loop of [_ParseLabels], case by case *)

(** The label of [l] bytes after the length byte at [offset]. *)
Definition label_at (payload : list byte) (offset l : Z) : string :=
  string_of (Slice (drop (Z.to_nat (offset + 1)) payload) (offset + l + 1 - (offset + 1))).

(** What an activation does with the result of its recursive call. *)
Definition after_follow (labels : list string) (offset : Z)
    (r : run (string * Z * option error)) : run (string * Z * option error) :=
  '(label, _, err) ← r;
  match err with
  | Some e => Done ("", 0, Some e)
  | None => Done (Join (labels ++ [label]) ".", offset + 2, None)
  end.

Inductive iteration (follow : Z -> gmap Z Z -> run (string * Z * option error))
    (payload : list byte) (pointers : gmap Z Z) (n' : nat) (offset : Z)
    (labels : list string) : run (string * Z * option error) -> Prop :=
| it_past_end :
    len payload <= offset ->
    iteration follow payload pointers n' offset labels
      (Done ("", 0, Some ErrDecodeDnsLabelInvalidOffset))
| it_negative :
    offset < 0 ->
    iteration follow payload pointers n' offset labels Panic
| it_zero :
    index payload offset = Some 0 ->
    iteration follow payload pointers n' offset labels
      (Done (Join labels ".", offset + 1, None))
| it_pointer_cut (l : Z) :
    index payload offset = Some l -> 192 <= l ->
    index payload (offset + 1) = None ->
    iteration follow payload pointers n' offset labels Panic
| it_pointer_seen (l b : Z) :
    index payload offset = Some l -> 192 <= l ->
    index payload (offset + 1) = Some b ->
    is_Some (pointers !! pointer_target l b) ->
    iteration follow payload pointers n' offset labels
      (Done ("", 0, Some ErrDecodeDnsLabelInvalidOffsetInfiniteLoop))
| it_pointer_new (l b : Z) :
    index payload offset = Some l -> 192 <= l ->
    index payload (offset + 1) = Some b ->
    pointers !! pointer_target l b = None ->
    iteration follow payload pointers n' offset labels
      (after_follow labels offset
         (follow (pointer_target l b) (<[pointer_target l b := 1]> pointers)))
| it_label_short (l : Z) :
    index payload offset = Some l -> 0 < l < 192 ->
    len payload <= offset + l + 1 ->
    iteration follow payload pointers n' offset labels
      (Done ("", 0, Some ErrDecodeDnsLabelTooShort))
| it_label (l : Z) :
    index payload offset = Some l -> 0 < l < 192 ->
    offset + l + 1 < len payload ->
    iteration follow payload pointers n' offset labels
      (labels_loop follow payload pointers n' (offset + l + 1)
         (labels ++ [label_at payload offset l])).

(** The 16-bit big-endian word at bytes [i] and [i+1] of a packet. *)
Definition word16_at (payload : list byte) (i : nat) : Z :=
  256 * b2z (nth i payload x00) + b2z (nth (S i) payload x00).

(** ** Sample packets *)

(** A query for example.com with one A answer; the owner name of the answer
    is a pointer to offset 12. *)
Definition sample_message : list byte :=
  [x12; x34; x81; x80; x00; x01; x00; x01; x00; x00; x00; x00;
   x07; x65; x78; x61; x6d; x70; x6c; x65; x03; x63; x6f; x6d; x00;
   x00; x01; x00; x01;
   xc0; x0c; x00; x01; x00; x01; x00; x00; x0e; x10; x00; x04;
   x5d; xb8; xd8; x22].

(** A record of the root name, type A, class IN, ttl 0, 4 bytes of rdata. *)
Definition record_A : list byte :=
  [x00; x00; x01; x00; x01; x00; x00; x00; x00; x00; x04; x01; x02; x03; x04].

(** What [record_A] decodes to. *)
Definition answer_A : DnsAnswer := mkDnsAnswer "" "A" 1 0 "1.2.3.4".

(** A record of the root name, type OPT (41), no rdata. *)
Definition record_OPT : list byte :=
  [x00; x00; x29; x10; x00; x00; x00; x00; x00; x00; x00].

(** A record of the root name, type TXT, with the given rdlength byte,
    followed by [rest]. *)
Definition record_TXT (rdlength : byte) (rest : list byte) : list byte :=
  [x00; x00; x10; x00; x01; x00; x00; x00; x00; x00; rdlength] ++ rest.

(** A record of the root name, type SOA, whose rdata are two root names. *)
Definition record_SOA_short : list byte :=
  [x00; x00; x06; x00; x01; x00; x00; x00; x00; x00; x02; x00; x00].

(** Two pointers that point at each other. *)
Definition pointer_pair : list byte := [xc0; x02; xc0; x00].

(** Three pointers in a row, then the name "a". *)
Definition pointer_chain : list byte :=
  [xc0; x02; xc0; x04; xc0; x06; x01; x61; x00].

(** ** The meaning of an encoded name *)

(** [resolves payload o ls off]: the name encoded at offset [o] has the
    elements [ls] and its encoding ends just before [off].  The elements are
    the literal labels in order; a name that ends in a compression pointer
    has, as its last element, the whole dotted name found at the target. *)
Inductive resolves (payload : list byte) : Z -> list string -> Z -> Prop :=
| resolves_zero (o : Z) :
    index payload o = Some 0 ->
    resolves payload o [] (o + 1)
| resolves_pointer (o l b : Z) (ls : list string) (off : Z) :
    index payload o = Some l -> 192 <= l ->
    index payload (o + 1) = Some b ->
    resolves payload (pointer_target l b) ls off ->
    resolves payload o [Join ls "."] (o + 2)
| resolves_label (o l : Z) (ls : list string) (off : Z) :
    index payload o = Some l -> 0 < l < 192 ->
    resolves payload (o + l + 1) ls off ->
    resolves payload o (label_at payload o l :: ls) off.

(** The length byte of a label. *)
Definition length_byte (lab : list byte) : byte :=
  match Byte.of_N (N.of_nat (length lab)) with
  | Some b => b
  | None => x00
  end.

(** The wire form of a name without compression: every label after its
    length byte, then the zero byte. *)
Fixpoint encode_name (labels : list (list byte)) : list byte :=
  match labels with
  | [] => [x00]
  | lab :: rest => length_byte lab :: lab ++ encode_name rest
  end.

(** The 32-bit big-endian word at bytes [i] to [i+3] of a packet. *)
Definition word32_at (payload : list byte) (i : nat) : Z :=
  16777216 * b2z (nth i payload x00) + 65536 * b2z (nth (i + 1) payload x00)
  + 256 * b2z (nth (i + 2) payload x00) + b2z (nth (i + 3) payload x00).

(** The type names that [ParseRdata] hands to a parser. *)
Definition parsed_types : list string :=
  ["A"; "AAAA"; "CNAME"; "MX"; "SRV"; "NS"; "TXT"; "PTR"; "SOA"].

(** The 16-bit big-endian groups of a sequence of bytes, two bytes each. *)
Fixpoint groups16 (bs : list byte) : list Z :=
  match bs with
  | b0 :: b1 :: rest => (256 * b2z b0 + b2z b1) :: groups16 rest
  | _ => []
  end.

(** ** Building the filtering stage *)

Section Loading.

Variable regexp : Type.

(** [regexp.MustCompile]: [None] when the expression does not compile, where
    the call panics. *)
Variable MustCompile : string -> option regexp.

(** [strings.ToLower] *)
Variable ToLower : string -> string.

(** [os.Open] and a [bufio.Scanner] over the file: [None] when the file
    cannot be opened, otherwise the lines the scanner yields, in order.
    What the processor writes to its logger is left out. *)
Variable open_lines : string -> option (list string).

(** [config.Subprocessors.Filtering], the fields read by the loaders. *)
Record FilteringFiles : Type := mkFilteringFiles {
  DropQueryIpFile : string;
  DropFqdnFile : string;
  DropDomainFile : string
}.

(** The fields of the processor while it is built.  A Go map that was never
    made is nil ([None]): reading it is reading an empty map, assigning to
    it is a run-time panic. *)
Record Building : Type := mkBuilding {
  b_dropDomains : bool;
  b_listQueryIp : option (gmap string bool);
  b_listFqdns : gmap string bool;
  b_listDomainsRegex : gmap string regexp
}.

(** The loop [p.listQueryIp[strings.ToLower(scanner.Text())] = true]. *)
Fixpoint load_query_ips (lines : list string) (m : option (gmap string bool))
    : run (option (gmap string bool)) :=
  match lines with
  | [] => Done m
  | line :: rest =>
    let queryip := ToLower line in
    match m with
    | None => Panic
    | Some m' => load_query_ips rest (Some (<[queryip := true]> m'))
    end
  end.

Definition LoadQueryIpList (files : FilteringFiles) (p : Building) : run Building :=
  if 0 <? Z.of_nat (String.length (DropQueryIpFile files)) then
    match open_lines (DropQueryIpFile files) with
    | None => Done p
    | Some lines =>
      m ← load_query_ips lines (b_listQueryIp p);
      Done (mkBuilding (b_dropDomains p) m (b_listFqdns p) (b_listDomainsRegex p))
    end
  else Done p.

(** The loop [p.listFqdns[strings.ToLower(scanner.Text())] = true]. *)
Fixpoint load_fqdns (lines : list string) (m : gmap string bool) : gmap string bool :=
  match lines with
  | [] => m
  | line :: rest =>
    let fqdn := ToLower line in
    load_fqdns rest (<[fqdn := true]> m)
  end.

(** The loop [p.listDomainsRegex[domain] = regexp.MustCompile(domain)]. *)
Fixpoint load_domains (lines : list string) (m : gmap string regexp)
    : run (gmap string regexp) :=
  match lines with
  | [] => Done m
  | line :: rest =>
    let domain := ToLower line in
    r ← must (MustCompile domain);
    load_domains rest (<[domain := r]> m)
  end.

Definition LoadDomainsList (files : FilteringFiles) (p : Building) : run Building :=
  let p1 :=
    if 0 <? Z.of_nat (String.length (DropFqdnFile files)) then
      match open_lines (DropFqdnFile files) with
      | None =>
        mkBuilding true (b_listQueryIp p) (b_listFqdns p) (b_listDomainsRegex p)
      | Some lines =>
        mkBuilding true (b_listQueryIp p) (load_fqdns lines (b_listFqdns p))
                   (b_listDomainsRegex p)
      end
    else p in
  if 0 <? Z.of_nat (String.length (DropDomainFile files)) then
    match open_lines (DropDomainFile files) with
    | None =>
      Done (mkBuilding true (b_listQueryIp p1) (b_listFqdns p1) (b_listDomainsRegex p1))
    | Some lines =>
      m ← load_domains lines (b_listDomainsRegex p1);
      Done (mkBuilding true (b_listQueryIp p1) (b_listFqdns p1) m)
    end
  else Done p1.

(** The processor that [NewFilteringProcessor] returns: a nil map is read as
    an empty one. *)
Definition built (config : FilteringConfig) (p : Building) : FilteringProcessor regexp :=
  mkFilteringProcessor config (b_dropDomains p)
    (default ∅ (b_listQueryIp p)) (b_listFqdns p) (b_listDomainsRegex p).

Definition NewFilteringProcessor (config : FilteringConfig) (files : FilteringFiles)
    : run (FilteringProcessor regexp) :=
  let d := mkBuilding false None ∅ ∅ in
  d ← LoadDomainsList files d;
  d ← LoadQueryIpList files d;
  Done (built config d).

End Loading.

Arguments mkBuilding {regexp}.
Arguments b_dropDomains {regexp}.
Arguments b_listQueryIp {regexp}.
Arguments b_listFqdns {regexp}.
Arguments b_listDomainsRegex {regexp}.
Arguments load_domains {regexp}.
Arguments LoadQueryIpList {regexp}.
Arguments LoadDomainsList {regexp}.
Arguments built {regexp}.
Arguments NewFilteringProcessor {regexp}.

(** A sample environment: three readable files, patterns that compile unless
    they are an open parenthesis, no change of case, and a matcher that
    looks for the pattern at the end of the name. *)
Definition sample_open (path : string) : option (list string) :=
  if String.eqb path "fqdn.txt" then Some ["example.com"; "example.org"]
  else if String.eqb path "domains.txt" then Some ["net$"]
  else if String.eqb path "bad.txt" then Some ["net$"; "("]
  else if String.eqb path "ips.txt" then Some ["192.0.2.1"]
  else None.

Definition sample_compile (expr : string) : option string :=
  if String.eqb expr "(" then None else Some expr.

Definition sample_lower (s : string) : string := s.

Definition sample_match (r : string) (s : string) : bool :=
  String.eqb r "net$" && String.eqb (substring (String.length s - 4) 4 s) ".net".

Definition sample_config : FilteringConfig := mkFilteringConfig true true [].

(** * Properties *)

(** ** Bytes, indices and big-endian words *)

Lemma b2z_range (b : byte) : 0 <= b2z b < 256.
Proof. unfold b2z. pose proof (Byte.to_N_bounded b). lia. Qed.

Lemma index_nth (payload : list byte) (i : Z) :
  0 <= i < len payload ->
  index payload i = Some (b2z (nth (Z.to_nat i) payload x00)).
Proof.
  intros Hi. unfold index, s_index, whole; simpl.
  replace (0 <=? i) with true by (symmetry; apply Z.leb_le; lia).
  replace (i <? len payload) with true by (symmetry; apply Z.ltb_lt; lia).
  simpl.
  assert (Hlt : (Z.to_nat i < length payload)%nat) by lia.
  destruct (nth_lookup_or_length payload (Z.to_nat i) x00) as [-> | ?]; [done | lia].
Qed.

Lemma index_out (payload : list byte) (i : Z) :
  i < 0 \/ len payload <= i -> index payload i = None.
Proof.
  intros Hi. unfold index, s_index, whole; simpl.
  destruct (0 <=? i) eqn:E1; [|done].
  destruct (i <? len payload) eqn:E2; [|done].
  apply Z.leb_le in E1. apply Z.ltb_lt in E2. lia.
Qed.

Lemma index_Some (payload : list byte) (i v : Z) :
  index payload i = Some v -> 0 <= i < len payload /\ 0 <= v < 256.
Proof.
  intros H.
  destruct (decide (0 <= i < len payload)) as [Hi | Hi].
  - split; [done|]. rewrite index_nth in H by done. inversion H. apply b2z_range.
  - rewrite index_out in H by lia. done.
Qed.

Lemma lor_shiftl_8 (hi lo : Z) :
  0 <= lo < 256 -> Z.lor lo (Z.shiftl hi 8) = 256 * hi + lo.
Proof.
  intros Hlo. rewrite Z.shiftl_mul_pow2 by lia.
  rewrite Z.lor_comm, <- Z.add_nocarry_lor.
  - change (2 ^ 8) with 256. lia.
  - apply Z.bits_inj'. intros n Hn. rewrite Z.land_spec, Z.bits_0.
    destruct (decide (n < 8)) as [Hlt | Hge].
    + rewrite Z.mul_pow2_bits_low by lia. done.
    + rewrite (Z.bits_above_log2 lo n); [by rewrite andb_false_r | lia |].
      destruct (decide (lo = 0)) as [-> | Hnz]; [simpl; lia|].
      assert (Z.log2 lo < 8) by (apply Z.log2_lt_pow2; lia). lia.
Qed.

Lemma be16_index (payload : list byte) (lo : Z) :
  be16 payload lo (lo + 2) =
  match index payload lo, index payload (lo + 1) with
  | Some b0, Some b1 => Done (256 * b0 + b1)
  | _, _ => Panic
  end.
Proof.
  destruct (decide (0 <= lo /\ lo + 2 <= len payload)) as [Hin | Hout].
  - rewrite !index_nth by lia.
    unfold be16, slice_of, s_slice, whole, cap; simpl.
    replace (0 <=? lo) with true by (symmetry; apply Z.leb_le; lia).
    replace (lo <=? lo + 2) with true by (symmetry; apply Z.leb_le; lia).
    replace (lo + 2 <=? len payload) with true by (symmetry; apply Z.leb_le; lia).
    simpl. unfold Uint16, s_index; simpl.
    replace (lo + 2 - lo) with 2 by lia. simpl.
    rewrite !lookup_drop.
    assert (H0 : (Z.to_nat lo < length payload)%nat) by lia.
    assert (H1 : (Z.to_nat lo + 1 < length payload)%nat) by lia.
    change (Z.to_nat 1) with 1%nat. change (Z.to_nat 0) with 0%nat.
    destruct (nth_lookup_or_length payload (Z.to_nat lo + 1) x00) as [-> | ?]; [|lia].
    replace (Z.to_nat lo + 0)%nat with (Z.to_nat lo) by lia.
    destruct (nth_lookup_or_length payload (Z.to_nat lo) x00) as [-> | ?]; [|lia].
    simpl. rewrite lor_shiftl_8 by apply b2z_range.
    replace (Z.to_nat (lo + 1)) with (Z.to_nat lo + 1)%nat by lia. done.
  - destruct (decide (lo < 0)) as [Hneg | Hpos].
    + rewrite (index_out payload lo) by lia.
      unfold be16, slice_of, s_slice; simpl.
      replace (0 <=? lo) with false by (symmetry; apply Z.leb_gt; lia). done.
    + rewrite (index_out payload (lo + 1)) by lia.
      unfold be16, slice_of, s_slice, whole, cap; simpl.
      replace (lo + 2 <=? len payload) with false by (symmetry; apply Z.leb_gt; lia).
      rewrite !andb_false_r. simpl. by destruct (index payload lo).
Qed.

Lemma be16_word (payload : list byte) (i : nat) :
  Z.of_nat i + 2 <= len payload ->
  be16 payload (Z.of_nat i) (Z.of_nat i + 2) = Done (word16_at payload i).
Proof.
  intros Hi. rewrite be16_index, !index_nth by lia.
  unfold word16_at. replace (Z.to_nat (Z.of_nat i + 1)) with (S i) by lia.
  by rewrite Nat2Z.id.
Qed.

Lemma word16_at_range (payload : list byte) (i : nat) : 0 <= word16_at payload i < 65536.
Proof.
  unfold word16_at.
  pose proof (b2z_range (nth i payload x00)). pose proof (b2z_range (nth (S i) payload x00)). lia.
Qed.

Lemma land_15 (x : Z) : Z.land x 15 = x mod 16.
Proof. change 15 with (Z.ones 4). by rewrite Z.land_ones. Qed.

Lemma land_1 (x : Z) : Z.land x 1 = x mod 2.
Proof. change 1 with (Z.ones 1). by rewrite Z.land_ones. Qed.

Lemma flags_layout (w : Z) :
  0 <= w < 65536 ->
  let qr := Z.shiftr w 15 in
  let opcode := Z.land (Z.shiftr w 11) 15 in
  let aa := Z.land (Z.shiftr w 10) 1 in
  let tc := Z.land (Z.shiftr w 9) 1 in
  let rd := Z.land (Z.shiftr w 8) 1 in
  let ra := Z.land (Z.shiftr w 7) 1 in
  let z := Z.land (Z.shiftr w 6) 1 in
  let ad := Z.land (Z.shiftr w 5) 1 in
  let cd := Z.land (Z.shiftr w 4) 1 in
  let rcode := Z.land w 15 in
  w = ((((((((qr * 16 + opcode) * 2 + aa) * 2 + tc) * 2 + rd) * 2 + ra) * 2 + z) * 2 + ad) * 2 + cd) * 16 + rcode
  /\ 0 <= qr < 2 /\ 0 <= opcode < 16 /\ 0 <= aa < 2 /\ 0 <= tc < 2 /\ 0 <= rd < 2
  /\ 0 <= ra < 2 /\ 0 <= z < 2 /\ 0 <= ad < 2 /\ 0 <= cd < 2 /\ 0 <= rcode < 16.
Proof.
  intros Hw. cbv zeta.
  rewrite !land_15, !land_1. rewrite !Z.shiftr_div_pow2 by lia.
  change (2 ^ 15) with 32768. change (2 ^ 11) with 2048. change (2 ^ 10) with 1024.
  change (2 ^ 9) with 512. change (2 ^ 8) with 256. change (2 ^ 7) with 128.
  change (2 ^ 6) with 64. change (2 ^ 5) with 32. change (2 ^ 4) with 16. change (2 ^ 1) with 2.
  Z.div_mod_to_equations; lia.
Qed.

Lemma be16_word' (payload : list byte) (lo hi : Z) (i : nat) :
  lo = Z.of_nat i -> hi = lo + 2 -> hi <= len payload ->
  be16 payload lo hi = Done (word16_at payload i).
Proof. intros -> -> H. by apply be16_word. Qed.

Lemma DecodeDns_words (payload : list byte) :
  12 <= len payload ->
  DecodeDns payload =
  let w := word16_at payload 2 in
  Done (mkDnsHeader (word16_at payload 0) (Z.shiftr w 15) (Z.land (Z.shiftr w 11) 15)
          (Z.land (Z.shiftr w 10) 1) (Z.land (Z.shiftr w 9) 1) (Z.land (Z.shiftr w 8) 1)
          (Z.land (Z.shiftr w 7) 1) (Z.land (Z.shiftr w 6) 1) (Z.land (Z.shiftr w 5) 1)
          (Z.land (Z.shiftr w 4) 1) (Z.land w 15)
          (word16_at payload 4) (word16_at payload 6) (word16_at payload 8)
          (word16_at payload 10), None).
Proof.
  intros Hlen. unfold DecodeDns, DnsLen.
  replace (len payload <? 12) with false by (symmetry; apply Z.ltb_ge; lia).
  rewrite (be16_word' payload 0 2 0), (be16_word' payload 2 4 2),
    (be16_word' payload 4 6 4), (be16_word' payload 6 8 6),
    (be16_word' payload 8 10 8), (be16_word' payload 10 12 10) by lia.
  reflexivity.
Qed.

Lemma word16_at_take (payload : list byte) (i : nat) :
  (S i < 12)%nat -> word16_at (take 12 payload) i = word16_at payload i.
Proof.
  intros Hi. unfold word16_at.
  rewrite !nth_firstn.
  replace (i <? 12)%nat with true by (symmetry; apply Nat.ltb_lt; lia).
  replace (S i <? 12)%nat with true by (symmetry; apply Nat.ltb_lt; lia).
  done.
Qed.

(** C5.  On a buffer of fewer than 12 bytes [DecodeDns] returns the zero
    header and the header-too-short error, whatever the bytes are.  On a
    buffer of at least 12 bytes it returns no error and a header whose id is
    the big-endian word at bytes 0-1; the big-endian word at bytes 2-3 is,
    most significant bit first, QR (1 bit), OPCODE (4), AA, TC, RD, RA, Z,
    AD, CD (1 each) and RCODE (4), every field in its range; the four counts
    are the big-endian words at bytes 4-5, 6-7, 8-9 and 10-11. *)
Theorem DecodeDns_contract (payload : list byte) :
  (len payload < 12 ->
     DecodeDns payload = Done (zeroDnsHeader, Some ErrDecodeDnsHeaderTooShort)) /\
  (12 <= len payload ->
     exists dh : DnsHeader,
       DecodeDns payload = Done (dh, None) /\
       Id dh = word16_at payload 0 /\
       word16_at payload 2 =
         ((((((((Qr dh * 16 + Opcode dh) * 2 + Aa dh) * 2 + Tc dh) * 2 + Rd dh) * 2
              + Ra dh) * 2 + Z_ dh) * 2 + Ad dh) * 2 + Cd dh) * 16 + Rcode dh /\
       (0 <= Qr dh < 2 /\ 0 <= Opcode dh < 16 /\ 0 <= Aa dh < 2 /\ 0 <= Tc dh < 2 /\
        0 <= Rd dh < 2 /\ 0 <= Ra dh < 2 /\ 0 <= Z_ dh < 2 /\ 0 <= Ad dh < 2 /\
        0 <= Cd dh < 2 /\ 0 <= Rcode dh < 16) /\
       Qdcount dh = word16_at payload 4 /\
       Ancount dh = word16_at payload 6 /\
       Nscount dh = word16_at payload 8 /\
       Arcount dh = word16_at payload 10).
Proof.
  split.
  - intros Hlen. unfold DecodeDns, DnsLen.
    by replace (len payload <? 12) with true by (symmetry; apply Z.ltb_lt; lia).
  - intros Hlen. rewrite DecodeDns_words by done. cbv zeta.
    eexists. split; [reflexivity|]. simpl.
    destruct (flags_layout (word16_at payload 2) (word16_at_range payload 2))
      as (Hw & Hr).
    repeat split; try reflexivity; try apply Hw; try tauto.
Qed.

Lemma DecodeDns_contract_witness :
  DecodeDns [] = Done (zeroDnsHeader, Some ErrDecodeDnsHeaderTooShort) /\
  exists dh : DnsHeader,
    DecodeDns sample_message = Done (dh, None) /\
    Id dh = word16_at sample_message 0 /\
    word16_at sample_message 2 =
      ((((((((Qr dh * 16 + Opcode dh) * 2 + Aa dh) * 2 + Tc dh) * 2 + Rd dh) * 2
           + Ra dh) * 2 + Z_ dh) * 2 + Ad dh) * 2 + Cd dh) * 16 + Rcode dh /\
    (0 <= Qr dh < 2 /\ 0 <= Opcode dh < 16 /\ 0 <= Aa dh < 2 /\ 0 <= Tc dh < 2 /\
     0 <= Rd dh < 2 /\ 0 <= Ra dh < 2 /\ 0 <= Z_ dh < 2 /\ 0 <= Ad dh < 2 /\
     0 <= Cd dh < 2 /\ 0 <= Rcode dh < 16) /\
    Qdcount dh = word16_at sample_message 4 /\
    Ancount dh = word16_at sample_message 6 /\
    Nscount dh = word16_at sample_message 8 /\
    Arcount dh = word16_at sample_message 10.
Proof.
  split.
  - apply (proj1 (DecodeDns_contract [])). simpl. lia.
  - apply (proj2 (DecodeDns_contract sample_message)). simpl. lia.
Defined.

(** C9.  [DecodeDns] depends on the first 12 bytes only: two buffers of at
    least 12 bytes with the same first 12 bytes decode to the same result. *)
Theorem DecodeDns_first_12_bytes (p1 p2 : list byte) :
  12 <= len p1 -> 12 <= len p2 -> take 12 p1 = take 12 p2 ->
  DecodeDns p1 = DecodeDns p2.
Proof.
  intros H1 H2 Heq. rewrite !DecodeDns_words by done. cbv zeta.
  rewrite <- !(word16_at_take p1), <- !(word16_at_take p2) by lia.
  by rewrite Heq.
Qed.

Lemma DecodeDns_first_12_bytes_witness :
  DecodeDns sample_message = DecodeDns (take 12 sample_message ++ [xff; xff]).
Proof.
  apply DecodeDns_first_12_bytes.
  - simpl. lia.
  - simpl. lia.
  - reflexivity.
Defined.

(** ** The label resolver *)

Lemma slice_of_inside (payload : list byte) (lo hi : Z) :
  0 <= lo <= hi -> hi <= len payload ->
  slice_of payload lo hi = Some (Slice (drop (Z.to_nat lo) payload) (hi - lo)).
Proof.
  intros H1 H2. unfold slice_of, s_slice, whole, cap; simpl.
  replace (0 <=? lo) with true by (symmetry; apply Z.leb_le; lia).
  replace (lo <=? hi) with true by (symmetry; apply Z.leb_le; lia).
  by replace (hi <=? len payload) with true by (symmetry; apply Z.leb_le; lia).
Qed.

Lemma slice_from_inside (payload : list byte) (lo : Z) :
  0 <= lo <= len payload ->
  slice_from payload lo = Some (Slice (drop (Z.to_nat lo) payload) (len payload - lo)).
Proof.
  intros H. unfold slice_from, s_from, whole; simpl.
  replace (0 <=? lo) with true by (symmetry; apply Z.leb_le; lia).
  by replace (lo <=? len payload) with true by (symmetry; apply Z.leb_le; lia).
Qed.

Lemma shiftr_6_pointer (l : Z) :
  0 <= l < 256 -> (Z.shiftr l 6 =? 3) = (192 <=? l).
Proof.
  intros Hl. rewrite Z.shiftr_div_pow2 by lia. change (2 ^ 6) with 64.
  destruct (192 <=? l) eqn:E.
  - apply Z.leb_le in E. apply Z.eqb_eq. Z.div_mod_to_equations. lia.
  - apply Z.leb_gt in E. apply Z.eqb_neq. Z.div_mod_to_equations. lia.
Qed.

Lemma land_pointer (l b : Z) :
  192 <= l < 256 -> 0 <= b < 256 ->
  Z.land (256 * l + b) 16383 = pointer_target l b.
Proof.
  intros Hl Hb. change 16383 with (Z.ones 14). rewrite Z.land_ones by lia.
  change (2 ^ 14) with 16384. unfold pointer_target.
  Z.div_mod_to_equations. lia.
Qed.

Lemma pointer_target_range (l b : Z) :
  192 <= l < 256 -> 0 <= b < 256 -> 0 <= pointer_target l b < pointer_targets.
Proof. unfold pointer_target, pointer_targets. lia. Qed.

Lemma labels_loop_step follow payload pointers n' offset labels :
  iteration follow payload pointers n' offset labels
    (labels_loop follow payload pointers (S n') offset labels).
Proof.
  simpl.
  destruct (offset >=? len payload) eqn:Eend.
  { apply it_past_end. apply Z.geb_le in Eend. lia. }
  rewrite Z.geb_leb in Eend. apply Z.leb_gt in Eend.
  destruct (index payload offset) as [l|] eqn:El; simpl.
  2:{ apply it_negative.
      destruct (decide (0 <= offset)); [|lia].
      rewrite index_nth in El by lia. done. }
  destruct (index_Some _ _ _ El) as [Hoff Hl].
  destruct (l =? 0) eqn:E0.
  { apply Z.eqb_eq in E0. subst l. by apply it_zero. }
  apply Z.eqb_neq in E0.
  rewrite shiftr_6_pointer by done.
  destruct (192 <=? l) eqn:Eptr.
  - apply Z.leb_le in Eptr. rewrite be16_index, El.
    destruct (index payload (offset + 1)) as [b|] eqn:Eb; simpl.
    2:{ by eapply it_pointer_cut. }
    destruct (index_Some _ _ _ Eb) as [_ Hb].
    rewrite land_pointer by lia.
    destruct (pointers !! pointer_target l b) as [v|] eqn:Ev.
    + eapply it_pointer_seen; eauto.
    + by eapply it_pointer_new.
  - apply Z.leb_gt in Eptr.
    destruct (offset + l + 1 >=? len payload) eqn:Eshort.
    { eapply it_label_short; eauto; [lia|]. apply Z.geb_le in Eshort. lia. }
    rewrite Z.geb_leb in Eshort. apply Z.leb_gt in Eshort.
    rewrite slice_of_inside by lia. simpl.
    by apply it_label; [|lia|].
Qed.

Lemma labels_loop_result follow payload pointers n offset labels name off err :
  labels_loop follow payload pointers n offset labels = Done (name, off, err) ->
  match err with
  | Some _ => name = "" /\ off = 0
  | None => 0 <= offset < off /\ off <= len payload
  end.
Proof.
  revert offset labels. induction n as [|n' IH]; intros offset labels; [done|].
  destruct (labels_loop_step follow payload pointers n' offset labels)
    as [H|H|H|l H Hl Hb|l b H Hl Hb Hp|l b H Hl Hb Hp|l H Hl Hs|l H Hl Hs].
  - by intros [= <- <- <-].
  - done.
  - intros [= <- <- <-]. apply index_Some in H. lia.
  - done.
  - by intros [= <- <- <-].
  - apply index_Some in H. apply index_Some in Hb.
    destruct (follow _ _) as [[[label x] [e|]]| |]; simpl; try done.
    + by intros [= <- <- <-].
    + intros [= <- <- <-]. lia.
  - by intros [= <- <- <-].
  - intros Hr. apply IH in Hr. apply index_Some in H.
    destruct err; [done | lia].
Qed.

Lemma _ParseLabels_S depth offset payload pointers :
  _ParseLabels (S depth) offset payload pointers =
  labels_loop (fun ptr ptrs => _ParseLabels depth ptr payload ptrs)
              payload pointers (S (length payload)) offset [].
Proof. reflexivity. Qed.

Lemma ParseLabels_result offset payload name off err :
  ParseLabels offset payload = Done (name, off, err) ->
  match err with
  | Some _ => name = "" /\ off = 0
  | None => 0 <= offset < off /\ off <= len payload
  end.
Proof. unfold ParseLabels. rewrite _ParseLabels_S. apply labels_loop_result. Qed.

(** *** Termination *)

Lemma marks_size (pointers : gmap Z Z) :
  marks_in_range pointers -> (size pointers <= Z.to_nat pointer_targets)%nat.
Proof.
  intros Hr.
  assert (Hsub : dom pointers ⊆ (list_to_set (seqZ 0 pointer_targets) : gset Z)).
  { intros k Hk. apply elem_of_dom in Hk. apply Hr in Hk.
    apply elem_of_list_to_set, elem_of_seqZ. lia. }
  apply subseteq_size in Hsub.
  rewrite size_dom in Hsub.
  rewrite size_list_to_set in Hsub by apply NoDup_seqZ.
  by rewrite length_seqZ in Hsub.
Qed.

Lemma marks_in_range_insert (pointers : gmap Z Z) (ptr v : Z) :
  marks_in_range pointers -> 0 <= ptr < pointer_targets ->
  marks_in_range (<[ptr := v]> pointers).
Proof.
  intros Hr Hp k Hk. destruct (decide (k = ptr)) as [-> | Hne]; [done|].
  rewrite lookup_insert_ne in Hk by done. by apply Hr.
Qed.

Lemma labels_loop_has_fuel follow payload pointers :
  (forall ptr : Z, 0 <= ptr < pointer_targets -> pointers !! ptr = None ->
     follow ptr (<[ptr := 1]> pointers) <> OutOfFuel) ->
  forall (n : nat) (offset : Z) (labels : list string),
    (1 <= n)%nat -> offset < 0 \/ len payload - offset < Z.of_nat n ->
    labels_loop follow payload pointers n offset labels <> OutOfFuel.
Proof.
  intros Hfollow n. induction n as [|n' IH]; intros offset labels Hn Hfuel; [lia|].
  destruct (labels_loop_step follow payload pointers n' offset labels)
    as [H|H|H|l H Hl Hb|l b H Hl Hb Hp|l b H Hl Hb Hp|l H Hl Hs|l H Hl Hs];
    try done.
  - apply index_Some in H. apply index_Some in Hb.
    specialize (Hfollow (pointer_target l b)
                  (pointer_target_range l b ltac:(lia) ltac:(lia)) Hp).
    destruct (follow _ _) as [[[label x] [e|]]| |]; done.
  - apply index_Some in H. apply IH; lia.
Qed.

Lemma _ParseLabels_has_fuel (depth : nat) (payload : list byte) :
  forall (offset : Z) (pointers : gmap Z Z),
    marks_in_range pointers ->
    (Z.to_nat pointer_targets < depth + size pointers)%nat ->
    _ParseLabels depth offset payload pointers <> OutOfFuel.
Proof.
  induction depth as [|d IH]; intros offset pointers Hr Hd.
  - apply marks_size in Hr. lia.
  - rewrite _ParseLabels_S. apply labels_loop_has_fuel; [|lia|lia].
    intros ptr Hptr Hnew. apply IH.
    + by apply marks_in_range_insert.
    + rewrite map_size_insert_None by done. lia.
Qed.

Lemma ParseLabels_has_fuel (offset : Z) (payload : list byte) :
  ParseLabels offset payload <> OutOfFuel.
Proof.
  unfold ParseLabels. apply _ParseLabels_has_fuel.
  - intros k [v Hk]. by rewrite lookup_empty in Hk.
  - rewrite map_size_empty. lia.
Qed.

(** *** Names as walks through the packet *)

Lemma successor_out payload o : index payload o = None -> successor payload o = None.
Proof. intros H. unfold successor. by rewrite H. Qed.

Lemma successor_zero payload o : index payload o = Some 0 -> successor payload o = None.
Proof. intros H. unfold successor. by rewrite H. Qed.

Lemma successor_cut payload o l :
  index payload o = Some l -> 192 <= l -> index payload (o + 1) = None ->
  successor payload o = None.
Proof.
  intros H Hl Hb. unfold successor. rewrite H, Hb.
  replace (l =? 0) with false by (symmetry; apply Z.eqb_neq; lia).
  by replace (192 <=? l) with true by (symmetry; apply Z.leb_le; lia).
Qed.

Lemma successor_pointer payload o l b :
  index payload o = Some l -> 192 <= l -> index payload (o + 1) = Some b ->
  successor payload o = Some (pointer_target l b).
Proof.
  intros H Hl Hb. unfold successor. rewrite H, Hb.
  replace (l =? 0) with false by (symmetry; apply Z.eqb_neq; lia).
  by replace (192 <=? l) with true by (symmetry; apply Z.leb_le; lia).
Qed.

Lemma successor_label payload o l :
  index payload o = Some l -> 0 < l < 192 -> o + l + 1 <= len payload ->
  successor payload o = Some (o + l + 1).
Proof.
  intros H Hl Hb. unfold successor. rewrite H.
  replace (l =? 0) with false by (symmetry; apply Z.eqb_neq; lia).
  replace (192 <=? l) with false by (symmetry; apply Z.leb_gt; lia).
  by replace (o + l + 1 <=? len payload) with true by (symmetry; apply Z.leb_le; lia).
Qed.

Lemma successor_label_out payload o l :
  index payload o = Some l -> 0 < l < 192 -> len payload < o + l + 1 ->
  successor payload o = None.
Proof.
  intros H Hl Hb. unfold successor. rewrite H.
  replace (l =? 0) with false by (symmetry; apply Z.eqb_neq; lia).
  replace (192 <=? l) with false by (symmetry; apply Z.leb_gt; lia).
  by replace (o + l + 1 <=? len payload) with false by (symmetry; apply Z.leb_gt; lia).
Qed.

Lemma successor_inside payload o o' :
  successor payload o = Some o' -> 0 <= o < len payload.
Proof.
  intros H. destruct (index payload o) as [l|] eqn:El.
  - apply index_Some in El. tauto.
  - by rewrite successor_out in H.
Qed.

Lemma walk_add payload (n m : nat) (o : Z) :
  walk payload (n + m) o = walk payload n o ≫= walk payload m.
Proof.
  revert o. induction n as [|n IH]; intros o; simpl; [done|].
  destruct (successor payload o); [apply IH | done].
Qed.

Lemma stops_step payload o o' :
  successor payload o = Some o' -> stops payload o' -> stops payload o.
Proof. intros Hs [n Hn]. exists (S n). simpl. by rewrite Hs. Qed.

Lemma stops_now payload o : successor payload o = None -> stops payload o.
Proof. intros Hs. exists 1%nat. simpl. by rewrite Hs. Qed.

Lemma cyclic_not_stops payload o : cyclic payload o -> ~ stops payload o.
Proof.
  intros (k & j & a & Hk & Hj) [n Hn].
  assert (Hloop : forall i : nat, walk payload (i * S j) a = Some a).
  { induction i as [|i IH]; [done|].
    change (S i * S j)%nat with (S j + i * S j)%nat.
    rewrite walk_add, Hj. exact IH. }
  assert (Hfar : walk payload (k + n * S j) o = Some a).
  { rewrite walk_add, Hk. apply Hloop. }
  replace (k + n * S j)%nat with (n + (k + n * j))%nat in Hfar by lia.
  rewrite walk_add, Hn in Hfar. done.
Qed.

Lemma labels_loop_stops follow payload pointers :
  (forall ptr ptrs,
     follow ptr ptrs <> OutOfFuel ->
     (forall s o, follow ptr ptrs <>
                  Done (s, o, Some ErrDecodeDnsLabelInvalidOffsetInfiniteLoop)) ->
     stops payload ptr) ->
  forall (n : nat) (offset : Z) (labels : list string),
    labels_loop follow payload pointers n offset labels <> OutOfFuel ->
    (forall s o, labels_loop follow payload pointers n offset labels <>
                 Done (s, o, Some ErrDecodeDnsLabelInvalidOffsetInfiniteLoop)) ->
    stops payload offset.
Proof.
  intros Hfollow n. induction n as [|n' IH]; intros offset labels; [done|].
  destruct (labels_loop_step follow payload pointers n' offset labels)
    as [H|H|H|l H Hl Hb|l b H Hl Hb Hp|l b H Hl Hb Hp|l H Hl Hs|l H Hl Hs];
    intros Hnt Hnl.
  - apply stops_now, successor_out, index_out. lia.
  - apply stops_now, successor_out, index_out. lia.
  - by apply stops_now, successor_zero.
  - by eapply stops_now, successor_cut.
  - by specialize (Hnl "" 0).
  - eapply stops_step; [by eapply successor_pointer|].
    apply (Hfollow _ (<[pointer_target l b := 1]> pointers)).
    + intros Hf. by rewrite Hf in Hnt.
    + intros s o Hf. rewrite Hf in Hnl. by specialize (Hnl "" 0).
  - destruct (decide (offset + l + 1 = len payload)) as [Heq | Hne].
    + eapply stops_step; [eapply successor_label; eauto; lia|].
      apply stops_now, successor_out, index_out. lia.
    + eapply stops_now, successor_label_out; eauto. lia.
  - eapply stops_step; [eapply successor_label; eauto; lia|].
    by eapply IH.
Qed.

Lemma _ParseLabels_stops (depth : nat) (payload : list byte) :
  forall (offset : Z) (pointers : gmap Z Z),
    _ParseLabels depth offset payload pointers <> OutOfFuel ->
    (forall s o, _ParseLabels depth offset payload pointers <>
                 Done (s, o, Some ErrDecodeDnsLabelInvalidOffsetInfiniteLoop)) ->
    stops payload offset.
Proof.
  induction depth as [|d IH]; intros offset pointers; [done|].
  rewrite _ParseLabels_S. apply labels_loop_stops. intros ptr ptrs. apply IH.
Qed.

Lemma ParseLabels_cyclic (offset : Z) (payload : list byte) :
  cyclic payload offset ->
  ParseLabels offset payload = Done ("", 0, Some ErrDecodeDnsLabelInvalidOffsetInfiniteLoop).
Proof.
  intros Hcyc. apply cyclic_not_stops in Hcyc.
  pose proof (ParseLabels_has_fuel offset payload) as Hnt.
  pose proof (ParseLabels_result offset payload) as Hres.
  pose proof (_ParseLabels_stops (S (Z.to_nat pointer_targets)) payload offset ∅) as Hst.
  fold (ParseLabels offset payload) in Hst.
  destruct (ParseLabels offset payload) as [[[name off] [e|]]| |]; [| | |done].
  - destruct (Hres name off (Some e) eq_refl) as [-> ->].
    destruct e; try done; exfalso; apply Hcyc, Hst; done.
  - exfalso; apply Hcyc, Hst; done.
  - exfalso; apply Hcyc, Hst; done.
Qed.

(** *** Names that reach their end *)

Lemma ends_after_inside payload n o : ends_after payload n o -> 0 <= o < len payload.
Proof.
  intros (a & Hw & Ha). destruct n as [|n]; simpl in Hw.
  - injection Hw as ->. apply index_Some in Ha. tauto.
  - destruct (successor payload o) as [o'|] eqn:Es; [|done].
    by eapply successor_inside.
Qed.

Lemma ends_after_0 payload o : ends_after payload 0 o <-> index payload o = Some 0.
Proof.
  split.
  - intros (a & Hw & Ha). simpl in Hw. by injection Hw as ->.
  - intros H. by exists o.
Qed.

Lemma ends_after_S payload n o :
  ends_after payload (S n) o <->
  exists o', successor payload o = Some o' /\ ends_after payload n o'.
Proof.
  split.
  - intros (a & Hw & Ha). simpl in Hw.
    destruct (successor payload o) as [o'|]; [|done].
    exists o'. split; [done|]. by exists a.
  - intros (o' & Hs & a & Hw & Ha). exists a. simpl. by rewrite Hs.
Qed.

Lemma ends_after_unique payload n m o :
  ends_after payload n o -> ends_after payload m o -> n = m.
Proof.
  revert m o. induction n as [|n IH]; intros [|m] o Hn Hm; [done| | |].
  - apply ends_after_0, successor_zero in Hn.
    apply ends_after_S in Hm as (o' & Hs & _). congruence.
  - apply ends_after_0, successor_zero in Hm.
    apply ends_after_S in Hn as (o' & Hs & _). congruence.
  - apply ends_after_S in Hn as (o1 & Hs1 & Hn).
    apply ends_after_S in Hm as (o2 & Hs2 & Hm).
    f_equal. apply (IH m o1); [done|]. congruence.
Qed.

Lemma marks_behind_weaken payload pointers n m :
  (m <= n)%nat -> marks_behind payload pointers n -> marks_behind payload pointers m.
Proof. intros Hle Hb t k Ht Hk. specialize (Hb t k Ht Hk). lia. Qed.

Lemma marks_behind_insert payload pointers n ptr v :
  marks_behind payload pointers (S n) -> ends_after payload n ptr ->
  marks_behind payload (<[ptr := v]> pointers) n.
Proof.
  intros Hb Hend t m Ht Hm. destruct (decide (t = ptr)) as [-> | Hne].
  - by rewrite (ends_after_unique payload n m ptr).
  - rewrite lookup_insert_ne in Ht by done. specialize (Hb t m Ht Hm). lia.
Qed.

Lemma labels_loop_ends follow payload pointers :
  forall (fuel n : nat) (offset : Z) (labels : list string),
    (forall (m : nat) (ptr : Z) (ptrs : gmap Z Z),
       ends_after payload m ptr -> marks_behind payload ptrs m ->
       follow ptr ptrs = OutOfFuel \/
       exists name off, follow ptr ptrs = Done (name, off, None)) ->
    ends_after payload n offset -> marks_behind payload pointers n ->
    labels_loop follow payload pointers fuel offset labels = OutOfFuel \/
    exists name off,
      labels_loop follow payload pointers fuel offset labels = Done (name, off, None).
Proof.
  induction fuel as [|fuel IH]; intros n offset labels Hfollow Hend Hmarks;
    [by left|].
  pose proof (ends_after_inside _ _ _ Hend) as Hin.
  destruct (labels_loop_step follow payload pointers fuel offset labels)
    as [H|H|H|l H Hl Hb|l b H Hl Hb Hp|l b H Hl Hb Hp|l H Hl Hs|l H Hl Hs].
  - lia.
  - lia.
  - right. eauto.
  - destruct n as [|n].
    + apply ends_after_0 in Hend. rewrite H in Hend. injection Hend as ->. lia.
    + apply ends_after_S in Hend as (o' & Hsucc & _).
      rewrite (successor_cut _ _ _ H Hl Hb) in Hsucc. done.
  - destruct n as [|n].
    + apply ends_after_0 in Hend. rewrite H in Hend. injection Hend as ->. lia.
    + apply ends_after_S in Hend as (o' & Hsucc & Hend).
      rewrite (successor_pointer _ _ _ _ H Hl Hb) in Hsucc. injection Hsucc as <-.
      specialize (Hmarks _ _ Hp Hend). lia.
  - destruct n as [|n].
    + apply ends_after_0 in Hend. rewrite H in Hend. injection Hend as ->. lia.
    + apply ends_after_S in Hend as (o' & Hsucc & Hend).
      rewrite (successor_pointer _ _ _ _ H Hl Hb) in Hsucc. injection Hsucc as <-.
      destruct (Hfollow n (pointer_target l b) (<[pointer_target l b := 1]> pointers))
        as [Ht | (name & off & Hd)]; [done | by apply marks_behind_insert | |].
      * left. by rewrite Ht.
      * right. rewrite Hd. simpl. eauto.
  - destruct n as [|n].
    + apply ends_after_0 in Hend. rewrite H in Hend. injection Hend as ->. lia.
    + apply ends_after_S in Hend as (o' & Hsucc & Hend).
      destruct (decide (offset + l + 1 = len payload)) as [Heq | Hne].
      * rewrite (successor_label _ _ _ H Hl) in Hsucc by lia. injection Hsucc as <-.
        apply ends_after_inside in Hend. lia.
      * rewrite (successor_label_out _ _ _ H Hl) in Hsucc by lia. done.
  - destruct n as [|n].
    + apply ends_after_0 in Hend. rewrite H in Hend. injection Hend as ->. lia.
    + apply ends_after_S in Hend as (o' & Hsucc & Hend).
      rewrite (successor_label _ _ _ H Hl) in Hsucc by lia. injection Hsucc as <-.
      apply (IH n); [done | done |].
      eapply marks_behind_weaken; [|done]. lia.
Qed.

Lemma _ParseLabels_ends (depth : nat) (payload : list byte) :
  forall (n : nat) (offset : Z) (pointers : gmap Z Z),
    ends_after payload n offset -> marks_behind payload pointers n ->
    _ParseLabels depth offset payload pointers = OutOfFuel \/
    exists name off, _ParseLabels depth offset payload pointers = Done (name, off, None).
Proof.
  induction depth as [|d IH]; intros n offset pointers Hend Hmarks; [by left|].
  rewrite _ParseLabels_S. apply (labels_loop_ends _ _ _ _ n); [|done|done].
  intros m ptr ptrs. apply IH.
Qed.

Lemma ParseLabels_ends (n : nat) (offset : Z) (payload : list byte) :
  ends_after payload n offset ->
  exists name off, ParseLabels offset payload = Done (name, off, None).
Proof.
  intros Hend.
  destruct (_ParseLabels_ends (S (Z.to_nat pointer_targets)) payload n offset ∅)
    as [Ht | Hd]; [done | | | done].
  - intros t m [v Hv]. by rewrite lookup_empty in Hv.
  - by apply ParseLabels_has_fuel in Ht.
Qed.

(** C3.  [ParseLabels] terminates on every packet and offset: the recursion
    over pointers, bounded by the 16384 pointer targets, and the loop,
    bounded by the length of the packet, never exhaust their bounds.  A name
    that runs into a cycle of pointers (and labels) gets the infinite-loop
    error.  A name that reaches its terminating zero byte after finitely
    many elements, through any number of pointers, is resolved with no
    error. *)
Theorem ParseLabels_terminates (offset : Z) (payload : list byte) :
  ParseLabels offset payload <> OutOfFuel /\
  (cyclic payload offset ->
     ParseLabels offset payload =
     Done ("", 0, Some ErrDecodeDnsLabelInvalidOffsetInfiniteLoop)) /\
  (forall n : nat, ends_after payload n offset ->
     exists name off, ParseLabels offset payload = Done (name, off, None)).
Proof.
  split; [apply ParseLabels_has_fuel|].
  split; [apply ParseLabels_cyclic|].
  intros n. apply ParseLabels_ends.
Qed.

Lemma ParseLabels_terminates_witness :
  ParseLabels 0 pointer_pair =
    Done ("", 0, Some ErrDecodeDnsLabelInvalidOffsetInfiniteLoop) /\
  exists name off, ParseLabels 0 pointer_chain = Done (name, off, None).
Proof.
  split.
  - apply (proj1 (proj2 (ParseLabels_terminates 0 pointer_pair))).
    exists 0%nat, 1%nat, 0. split; reflexivity.
  - apply (proj2 (proj2 (ParseLabels_terminates 0 pointer_chain)) 4%nat).
    exists 8. split; reflexivity.
Defined.

(** *** When the resolver leaves the packet *)

Lemma reaches_cut_pointer_step payload o o' :
  successor payload o = Some o' -> reaches_cut_pointer payload o' ->
  reaches_cut_pointer payload o.
Proof.
  intros Hs (n & c & l & Hw & Hrest). exists (S n), c, l.
  split; [|done]. simpl. by rewrite Hs.
Qed.

Lemma labels_loop_panic follow payload pointers :
  (forall ptr ptrs, 0 <= ptr -> follow ptr ptrs = Panic ->
     reaches_cut_pointer payload ptr) ->
  forall (n : nat) (offset : Z) (labels : list string),
    0 <= offset ->
    labels_loop follow payload pointers n offset labels = Panic ->
    reaches_cut_pointer payload offset.
Proof.
  intros Hfollow n. induction n as [|n' IH]; intros offset labels Hpos; [done|].
  destruct (labels_loop_step follow payload pointers n' offset labels)
    as [H|H|H|l H Hl Hb|l b H Hl Hb Hp|l b H Hl Hb Hp|l H Hl Hs|l H Hl Hs];
    try done.
  - lia.
  - intros _. exists 0%nat, offset, l.
    split; [done|]. split; [done|]. split; [done|].
    apply index_Some in H.
    destruct (decide (offset + 1 < len payload)) as [Hlt|]; [|lia].
    rewrite index_nth in Hb by lia. done.
  - intros Hr. pose proof (index_Some _ _ _ H). pose proof (index_Some _ _ _ Hb).
    eapply reaches_cut_pointer_step; [by eapply successor_pointer|].
    apply (Hfollow _ (<[pointer_target l b := 1]> pointers)).
    + unfold pointer_target. lia.
    + by destruct (follow _ _) as [[[label x] [e|]]| |].
  - intros Hr. pose proof (index_Some _ _ _ H).
    eapply reaches_cut_pointer_step; [eapply successor_label; eauto; lia|].
    eapply IH; [lia | done].
Qed.

Lemma ParseLabels_panic (offset : Z) (payload : list byte) :
  ParseLabels offset payload = Panic ->
  offset < 0 \/ reaches_cut_pointer payload offset.
Proof.
  intros H. destruct (decide (offset < 0)) as [Hneg | Hpos]; [by left|]. right.
  revert offset Hpos H. unfold ParseLabels.
  generalize (∅ : gmap Z Z) as pointers.
  induction (S (Z.to_nat pointer_targets)) as [|d IH]; intros pointers offset Hpos; [done|].
  rewrite _ParseLabels_S. apply labels_loop_panic; [|lia].
  intros ptr ptrs Hptr. apply IH. lia.
Qed.

(** ** The question, the tables and the filtering gates *)

(** C7.  [DecodeQuestion] resolves one name at offset 12.  When the name is
    resolved with end offset [offset]: if fewer than 4 bytes remain there,
    the result is the qtype-too-short error; otherwise it is the name, the
    big-endian word at [offset] as qtype, and [offset + 4], with no error.
    When the name is not resolved, the error of the resolver is returned. *)
Theorem DecodeQuestion_contract (payload : list byte) :
  (forall qname offset,
     ParseLabels DnsLen payload = Done (qname, offset, None) ->
     (len payload - offset < 4 ->
        DecodeQuestion payload = Done ("", 0, 0, Some ErrDecodeQuestionQtypeTooShort)) /\
     (4 <= len payload - offset ->
        DecodeQuestion payload =
        Done (qname, word16_at payload (Z.to_nat offset), offset + 4, None))) /\
  (forall s o e,
     ParseLabels DnsLen payload = Done (s, o, Some e) ->
     DecodeQuestion payload = Done ("", 0, 0, Some e)).
Proof.
  split.
  - intros qname offset Hname.
    pose proof (ParseLabels_result _ _ _ _ _ Hname) as Hoff. simpl in Hoff.
    unfold DecodeQuestion. rewrite Hname. simpl.
    rewrite slice_from_inside by lia. simpl. split; intros Hrest.
    + by replace (len payload - offset <? 4) with true by (symmetry; apply Z.ltb_lt; lia).
    + replace (len payload - offset <? 4) with false by (symmetry; apply Z.ltb_ge; lia).
      rewrite (be16_word' payload offset (offset + 2) (Z.to_nat offset)) by lia.
      done.
  - intros s o e Hname. unfold DecodeQuestion. by rewrite Hname.
Qed.

Lemma DecodeQuestion_contract_witness :
  DecodeQuestion sample_message = Done ("example.com", 1, 29, None) /\
  DecodeQuestion (take 27 sample_message) =
    Done ("", 0, 0, Some ErrDecodeQuestionQtypeTooShort) /\
  DecodeQuestion (take 20 sample_message) =
    Done ("", 0, 0, Some ErrDecodeDnsLabelTooShort).
Proof.
  split; [|split].
  - apply (proj1 (DecodeQuestion_contract sample_message) "example.com" 25).
    + reflexivity.
    + simpl. lia.
  - apply (proj1 (DecodeQuestion_contract (take 27 sample_message)) "example.com" 25).
    + reflexivity.
    + simpl. lia.
  - apply (proj2 (DecodeQuestion_contract (take 20 sample_message)) "" 0).
    reflexivity.
Defined.

(** C8.  A type code that is not in the table of record types is rendered
    "UNKNOWN" and [ParseRdata] returns "-" with no error for it, whatever
    the rdata, the packet and the offset are; an rcode that is not in the
    table of rcodes is rendered "UNKNOWN". *)
Theorem unknown_type_and_rcode :
  (forall (t : Z) (rdata : slice) (payload : list byte) (rdata_offset : Z),
     Rdatatypes !! t = None ->
     RdatatypeToString t = "UNKNOWN" /\
     ParseRdata (RdatatypeToString t) rdata payload rdata_offset = Done ("-", None)) /\
  (forall rcode : Z, Rcodes !! rcode = None -> RcodeToString rcode = "UNKNOWN").
Proof.
  split.
  - intros t rdata payload rdata_offset Ht. unfold RdatatypeToString. rewrite Ht. done.
  - intros rcode Hr. unfold RcodeToString. by rewrite Hr.
Qed.

Lemma unknown_type_and_rcode_witness :
  (RdatatypeToString 31 = "UNKNOWN" /\
   ParseRdata (RdatatypeToString 31) (Slice [xab] 1) [xab] 0 = Done ("-", None)) /\
  RcodeToString 12 = "UNKNOWN".
Proof.
  split.
  - apply (proj1 unknown_type_and_rcode). reflexivity.
  - apply (proj2 unknown_type_and_rcode). reflexivity.
Defined.

(** C10.  [CheckIfDrop] returns true for a query when [LogQueries] is off
    and for a reply when [LogReplies] is off, whatever the drop lists, the
    rcode, the query address, the name and the regular expressions are. *)
Theorem CheckIfDrop_gates (regexp : Type) (MatchString : regexp -> string -> bool)
    (DnsQuery DnsReply : string) (p : FilteringProcessor regexp) (dm : DnsMessage) :
  (LogQueries (config p) = false /\ DNS_Type dm = DnsQuery) \/
  (LogReplies (config p) = false /\ DNS_Type dm = DnsReply) ->
  CheckIfDrop MatchString DnsQuery DnsReply p dm = true.
Proof.
  intros [[Hq Ht] | [Hr Ht]]; unfold CheckIfDrop.
  - rewrite Hq, Ht, String.eqb_refl. done.
  - rewrite Hr, Ht, String.eqb_refl. simpl.
    by destruct (negb (LogQueries (config p)) && (DnsReply =? DnsQuery)%string).
Qed.

Lemma CheckIfDrop_gates_witness :
  CheckIfDrop (fun (r : string) (s : string) => false) "QUERY" "REPLY"
    (mkFilteringProcessor (mkFilteringConfig false true []) false ∅ ∅ ∅)
    (mkDnsMessage "QUERY" "NOERROR" "example.com" "192.0.2.1") = true.
Proof.
  apply CheckIfDrop_gates. left. split; reflexivity.
Defined.

(** ** The answer section and the resource data *)

Lemma be32_inside (payload : list byte) (lo : Z) :
  0 <= lo -> lo + 4 <= len payload ->
  exists v : Z, be32 payload lo (lo + 4) = Done v.
Proof.
  intros Hlo Hhi. unfold be32. rewrite slice_of_inside by lia. simpl.
  unfold Uint32, s_index. simpl. replace (lo + 4 - lo) with 4 by lia. simpl.
  rewrite !lookup_drop.
  destruct (lookup_lt_is_Some_2 payload (Z.to_nat lo + Z.to_nat 3)) as [b3 ->]; [lia|].
  destruct (lookup_lt_is_Some_2 payload (Z.to_nat lo + Z.to_nat 0)) as [b0 ->]; [lia|].
  destruct (lookup_lt_is_Some_2 payload (Z.to_nat lo + Z.to_nat 1)) as [b1 ->]; [lia|].
  destruct (lookup_lt_is_Some_2 payload (Z.to_nat lo + Z.to_nat 2)) as [b2 ->]; [lia|].
  simpl. eauto.
Qed.

(** C2.  What the resolver does at the last byte of a packet.  On a pointer
    whose first byte is the last byte of the packet it slices two bytes and
    stops with a run-time panic, not with the invalid-offset error.  On a
    literal label whose bytes end exactly at the end of the packet it
    returns the label-too-short error although the packet holds the bytes
    of the label. *)
Theorem ParseLabels_at_the_last_byte (payload : list byte) (offset l : Z) :
  index payload offset = Some l ->
  (192 <= l -> offset + 1 = len payload -> ParseLabels offset payload = Panic) /\
  (0 < l < 192 -> offset + l + 1 = len payload ->
     ParseLabels offset payload = Done ("", 0, Some ErrDecodeDnsLabelTooShort)).
Proof.
  intros Hl. pose proof (index_Some _ _ _ Hl) as Hin.
  unfold ParseLabels. rewrite _ParseLabels_S.
  split; intros Hk Hend;
    destruct (labels_loop_step
                (fun ptr ptrs => _ParseLabels (Z.to_nat pointer_targets) ptr payload ptrs)
                payload ∅ (length payload) offset [])
      as [H|H|H|l' H Hl' Hb|l' b H Hl' Hb Hp|l' b H Hl' Hb Hp|l' H Hl' Hs|l' H Hl' Hs];
    try done; try lia; rewrite Hl in H; injection H as Heq; try lia;
    apply index_Some in Hb; lia.
Qed.

Lemma ParseLabels_at_the_last_byte_witness :
  ParseLabels 0 [xc0] = Panic /\
  ParseLabels 0 [x01; x61] = Done ("", 0, Some ErrDecodeDnsLabelTooShort).
Proof.
  split.
  - apply (proj1 (ParseLabels_at_the_last_byte [xc0] 0 192 eq_refl)).
    + lia.
    + reflexivity.
  - apply (proj2 (ParseLabels_at_the_last_byte [x01; x61] 0 1 eq_refl)).
    + lia.
    + reflexivity.
Defined.

(** C1.  A section of three records of 15, 11 and 15 bytes, the second one
    of type OPT, decoded with a count of 3: the result has one answer and
    the offset is 15, the start of the OPT record.  With the OPT record last,
    the result has two answers and the offset is 30, again the start of the
    OPT record, where the section ends at 41. *)
Theorem DecodeAnswer_OPT_among_two :
  len (record_A ++ record_OPT ++ record_A) = 41 /\
  DecodeAnswer 3 0 (record_A ++ record_OPT ++ record_A) = Done ([answer_A], 15, None) /\
  DecodeAnswer 3 0 (record_A ++ record_A ++ record_OPT) =
    Done ([answer_A; answer_A], 30, None).
Proof. split; [|split]; vm_compute; reflexivity. Qed.

(** C4.  When the record at the cursor is a well-formed OPT record, of
    [offset_next - offset] name bytes, 10 fixed bytes and [rdlength] rdata
    bytes, [DecodeAnswer] succeeds for every count, returns no answer and
    leaves the cursor at [offset], before the end of that record. *)
Theorem DecodeAnswer_OPT_keeps_cursor (payload : list byte)
    (offset : Z) (name : string) (offset_next rdlength ancount : Z) :
  ParseLabels offset payload = Done (name, offset_next, None) ->
  offset_next + 10 + rdlength <= len payload ->
  word16_at payload (Z.to_nat offset_next) = 41 ->
  word16_at payload (Z.to_nat offset_next + 8) = rdlength ->
  DecodeAnswer ancount offset payload = Done ([], offset, None) /\
  offset < offset_next + 10 + rdlength.
Proof.
  intros Hname Hfit Htype Hrdlen.
  pose proof (ParseLabels_result _ _ _ _ _ Hname) as Hoff. simpl in Hoff.
  assert (Hrd : 0 <= rdlength) by (subst rdlength; apply word16_at_range).
  split; [|lia].
  unfold DecodeAnswer. generalize (@nil DnsAnswer) as answers.
  induction (Z.to_nat ancount) as [|n IH]; intros answers; [done|].
  destruct (be32_inside payload (offset_next + 4) ltac:(lia) ltac:(lia)) as [ttl Httl].
  replace (offset_next + 4 + 4) with (offset_next + 8) in Httl by lia.
  cbn [DecodeAnswer_loop]. rewrite Hname. cbn [mbind run_bind].
  rewrite !slice_from_inside by lia. cbn [mbind run_bind must slen].
  replace (len payload - offset_next <? 10) with false by (symmetry; apply Z.ltb_ge; lia).
  rewrite (be16_word' payload offset_next (offset_next + 2) (Z.to_nat offset_next)) by lia.
  rewrite (be16_word' payload (offset_next + 2) (offset_next + 4) (Z.to_nat offset_next + 2))
    by lia.
  rewrite (be16_word' payload (offset_next + 8) (offset_next + 10) (Z.to_nat offset_next + 8))
    by lia.
  rewrite Httl, Hrdlen, Htype. cbn [mbind run_bind must slen].
  replace (len payload - (offset_next + 10) <? rdlength) with false
    by (symmetry; apply Z.ltb_ge; lia).
  rewrite slice_of_inside by lia. cbn [mbind run_bind must Z.eqb Pos.eqb].
  apply IH.
Qed.

Lemma DecodeAnswer_OPT_keeps_cursor_witness :
  DecodeAnswer 2 0 (record_OPT ++ record_A) = Done ([], 0, None) /\ 0 < 1 + 10 + 0.
Proof.
  apply (DecodeAnswer_OPT_keeps_cursor (record_OPT ++ record_A) 0 "" 1 0 2).
  - reflexivity.
  - simpl. lia.
  - reflexivity.
  - reflexivity.
Defined.

(** C6.  [ParseTXT] on empty rdata stops with a run-time panic, and so does
    [DecodeAnswer] on a TXT record with rdlength 0.  On a TXT record whose
    rdata is the single length byte 1, followed in the packet by the byte
    of "h", the text "h" is taken from outside the rdata; with nothing
    after a length byte of 5 the slice stops with a panic.  On a SOA record
    with no byte after its two names, [DecodeAnswer] stops with a panic. *)
Theorem rdata_parsers_out_of_range :
  ParseTXT (Slice [] 0) = Panic /\
  DecodeAnswer 1 0 (record_TXT x00 []) = Panic /\
  DecodeAnswer 1 0 (record_TXT x01 [x01; x68]) =
    Done ([mkDnsAnswer "" "TXT" 1 0 "h"], 12, None) /\
  DecodeAnswer 1 0 (record_TXT x01 [x05]) = Panic /\
  DecodeAnswer 1 0 record_SOA_short = Panic.
Proof. repeat split; vm_compute; reflexivity. Qed.

(** *** Records one after the other *)

Ltac run_cases :=
  repeat match goal with
  | |- context [mbind _ (ParseLabels ?o ?p)] =>
      destruct (ParseLabels o p) as [[[? ?] [?|]]| |] eqn:?; cbn [mbind run_bind]
  | |- context [mbind _ (ParseRdata ?a ?b ?c ?d)] =>
      destruct (ParseRdata a b c d) as [[? [?|]]| |] eqn:?; cbn [mbind run_bind]
  | |- context [mbind _ (must ?x)] =>
      destruct x eqn:?; cbn [mbind run_bind must]
  | |- context [mbind _ (be16 ?p ?a ?b)] =>
      destruct (be16 p a b) eqn:?; cbn [mbind run_bind]
  | |- context [mbind _ (be32 ?p ?a ?b)] =>
      destruct (be32 p a b) eqn:?; cbn [mbind run_bind]
  | |- context [if ?c then _ else _] => destruct c eqn:?
  end.

Lemma DecodeAnswer_loop_add (payload : list byte) (n m : nat) :
  forall (offset : Z) (answers : list DnsAnswer),
    DecodeAnswer_loop payload (n + m) offset answers =
    match DecodeAnswer_loop payload n offset answers with
    | Done (answers', offset', None) => DecodeAnswer_loop payload m offset' answers'
    | r => r
    end.
Proof.
  induction n as [|n IH]; intros offset answers; [done|].
  cbn [Nat.add DecodeAnswer_loop]. run_cases; try done; apply IH.
Qed.

Lemma be16_done (payload : list byte) (lo hi v : Z) :
  hi = lo + 2 -> be16 payload lo hi = Done v ->
  0 <= lo /\ hi <= len payload /\ v = word16_at payload (Z.to_nat lo).
Proof.
  intros -> H.
  destruct (decide (0 <= lo /\ lo + 2 <= len payload)) as [Hin | Hout].
  - rewrite (be16_word' payload lo (lo + 2) (Z.to_nat lo)) in H by lia.
    injection H as <-. repeat split; lia.
  - rewrite be16_index in H. destruct (decide (lo < 0)).
    + by rewrite (index_out payload lo) in H by lia.
    + rewrite (index_out payload (lo + 1)) in H by lia.
      by destruct (index payload lo).
Qed.

Lemma DecodeAnswer_one_record (payload : list byte) (offset off : Z) (a : DnsAnswer) :
  DecodeAnswer 1 offset payload = Done ([a], off, None) ->
  exists name_end : Z,
    ParseLabels offset payload = Done (Name a, name_end, None) /\
    off = name_end + 10 + word16_at payload (Z.to_nat name_end + 8).
Proof.
  unfold DecodeAnswer. change (Z.to_nat 1) with 1%nat. cbn [DecodeAnswer_loop].
  run_cases; try done.
  intros [= <- <-]. eexists. split; [reflexivity|].
  match goal with H8 : be16 payload (_ + 8) (_ + 10) = Done _ |- _ =>
    apply be16_done in H8 as (? & ? & ->); [|lia]
  end.
  match goal with H0 : be16 payload ?z (?z + 2) = Done _ |- _ =>
    apply be16_done in H0 as (? & _ & _); [|lia];
    replace (Z.to_nat (z + 8)) with (Z.to_nat z + 8)%nat by lia
  end.
  reflexivity.
Qed.


(** *** What a resolved name is *)

Lemma resolves_inside payload o ls off :
  resolves payload o ls off -> 0 <= o < len payload.
Proof. intros H. destruct H as [o H|o l b ls off H|o l ls off H]; apply index_Some in H; tauto. Qed.

Lemma resolves_unique payload o ls1 off1 ls2 off2 :
  resolves payload o ls1 off1 -> resolves payload o ls2 off2 ->
  ls1 = ls2 /\ off1 = off2.
Proof.
  intros H1. revert ls2 off2.
  induction H1 as [o H|o l b ls off H Hl Hb Hr IH|o l ls off H Hl Hr IH];
    intros ls2 off2 H2;
    destruct H2 as [o H'|o l' b' ls' off' H' Hl' Hb' Hr'|o l' ls' off' H' Hl' Hr'];
    rewrite H in H'; apply (inj Some) in H'; try lia; subst.
  - done.
  - rewrite Hb in Hb'. injection Hb' as <-.
    destruct (IH _ _ Hr') as [-> _]. done.
  - destruct (IH _ _ Hr') as [-> ->]. done.
Qed.

Lemma resolves_ends payload o ls off :
  resolves payload o ls off -> exists n : nat, ends_after payload n o.
Proof.
  induction 1 as [o H|o l b ls off H Hl Hb Hr [n IH]|o l ls off H Hl Hr [n IH]].
  - exists 0%nat. by apply ends_after_0.
  - exists (S n). apply ends_after_S. exists (pointer_target l b).
    split; [by eapply successor_pointer | done].
  - exists (S n). apply ends_after_S. exists (o + l + 1).
    split; [|done]. apply successor_label; [done | done |].
    apply resolves_inside in Hr. lia.
Qed.

Lemma labels_loop_resolves follow payload pointers :
  (forall ptr ptrs name off,
     follow ptr ptrs = Done (name, off, None) ->
     exists ls off', resolves payload ptr ls off' /\ name = Join ls ".") ->
  forall (n : nat) (offset : Z) (labels : list string) (name : string) (off : Z),
    labels_loop follow payload pointers n offset labels = Done (name, off, None) ->
    exists ls, resolves payload offset ls off /\ name = Join (labels ++ ls) ".".
Proof.
  intros Hfollow n. induction n as [|n' IH]; intros offset labels name off; [done|].
  destruct (labels_loop_step follow payload pointers n' offset labels)
    as [H|H|H|l H Hl Hb|l b H Hl Hb Hp|l b H Hl Hb Hp|l H Hl Hs|l H Hl Hs];
    try done.
  - intros [= <- <-]. exists []. split; [by constructor | by rewrite app_nil_r].
  - destruct (follow _ _) as [[[label x] [e|]]| |] eqn:Ef; try done.
    cbn [after_follow mbind run_bind]. intros [= <- <-].
    destruct (Hfollow _ _ _ _ Ef) as (ls & off' & Hr & ->).
    exists [Join ls "."]. split; [|done]. by econstructor.
  - intros Hr. apply IH in Hr as (ls & Hr & ->).
    exists (label_at payload offset l :: ls). split.
    + by econstructor.
    + by rewrite <- app_assoc.
Qed.

Lemma _ParseLabels_resolves (depth : nat) (payload : list byte) :
  forall (offset : Z) (pointers : gmap Z Z) (name : string) (off : Z),
    _ParseLabels depth offset payload pointers = Done (name, off, None) ->
    exists ls off', resolves payload offset ls off' /\ off' = off /\ name = Join ls ".".
Proof.
  induction depth as [|d IH]; intros offset pointers name off; [done|].
  rewrite _ParseLabels_S. intros Hr.
  apply labels_loop_resolves in Hr as (ls & Hr & ->).
  - exists ls, off. done.
  - intros ptr ptrs nm x Hf. apply IH in Hf as (ls & off' & Hr' & _ & ->). eauto.
Qed.

Lemma ParseLabels_iff_resolves (offset : Z) (payload : list byte) (name : string) (off : Z) :
  ParseLabels offset payload = Done (name, off, None) <->
  exists ls, resolves payload offset ls off /\ name = Join ls ".".
Proof.
  split.
  - intros H. apply _ParseLabels_resolves in H as (ls & off' & Hr & -> & ->). eauto.
  - intros (ls & Hr & ->).
    destruct (resolves_ends _ _ _ _ Hr) as [n Hend].
    destruct (ParseLabels_ends n offset payload Hend) as (name' & off' & Hp).
    rewrite Hp.
    apply _ParseLabels_resolves in Hp as (ls' & off'' & Hr' & -> & ->).
    by destruct (resolves_unique _ _ _ _ _ _ Hr Hr') as [-> ->].
Qed.

(** X3.  [ParseLabels] returns a name with no error exactly when the bytes at
    the offset encode a name: literal labels up to the zero byte, or up to a
    pointer whose target encodes a name in turn.  The result is the
    elements joined by dots, and the offset just after the zero byte or
    after the two bytes of the pointer. *)
Theorem ParseLabels_resolves (offset : Z) (payload : list byte) (name : string) (off : Z) :
  ParseLabels offset payload = Done (name, off, None) <->
  exists ls, resolves payload offset ls off /\ name = Join ls ".".
Proof.
  split.
  - intros H. by apply ParseLabels_iff_resolves.
  - intros (ls & Hr & Hname). apply ParseLabels_iff_resolves. by exists ls.
Qed.

Lemma ParseLabels_resolves_witness :
  ParseLabels 0 pointer_chain = Done ("a", 2, None).
Proof.
  apply ParseLabels_resolves. exists [Join [Join [Join ["a"] "."] "."] "."].
  split; [|reflexivity].
  apply (resolves_pointer pointer_chain 0 192 2 [Join [Join ["a"] "."] "."] 4);
    [reflexivity | lia | reflexivity |].
  apply (resolves_pointer pointer_chain 2 192 4 [Join ["a"] "."] 6);
    [reflexivity | lia | reflexivity |].
  apply (resolves_pointer pointer_chain 4 192 6 ["a"] 9);
    [reflexivity | lia | reflexivity |].
  apply (resolves_label pointer_chain 6 1 [] 9); [reflexivity | lia |].
  apply (resolves_zero pointer_chain 8). reflexivity.
Defined.

(** *** Names without and with compression *)

Lemma b2z_length_byte (lab : list byte) :
  (length lab <= 255)%nat -> b2z (length_byte lab) = len lab.
Proof.
  intros Hlen. unfold length_byte, b2z.
  destruct (Byte.of_N (N.of_nat (length lab))) as [b|] eqn:E.
  - apply Byte.to_of_N in E. rewrite E. lia.
  - apply Byte.of_N_None_iff in E. lia.
Qed.

Lemma index_middle (pre post : list byte) (b : byte) :
  index (pre ++ b :: post) (len pre) = Some (b2z b).
Proof.
  rewrite index_nth by (rewrite length_app; simpl; lia).
  rewrite Nat2Z.id. by rewrite nth_middle.
Qed.

Lemma label_at_middle (pre lab post : list byte) (b : byte) :
  label_at (pre ++ b :: lab ++ post) (len pre) (len lab) = string_of_list_byte lab.
Proof.
  unfold label_at, string_of, s_bytes. cbn [backing slen]. f_equal.
  replace (Z.to_nat (len pre + 1)) with (length (pre ++ [b])%list) by (rewrite length_app; simpl; lia).
  replace (pre ++ b :: lab ++ post)%list with ((pre ++ [b]) ++ lab ++ post)%list
    by (by rewrite <- app_assoc).
  rewrite drop_app_length.
  replace (Z.to_nat (len pre + len lab + 1 - (len pre + 1))) with (length lab) by lia.
  by rewrite take_app_length.
Qed.

Lemma resolves_encode_name (labels : list (list byte)) (rest : list byte) :
  Forall (fun lab => (1 <= length lab <= 191)%nat) labels ->
  forall pre : list byte,
    resolves (pre ++ encode_name labels ++ rest) (len pre)
      (string_of_list_byte <$> labels) (len pre + len (encode_name labels)).
Proof.
  induction 1 as [|lab labels Hlab Hall IH]; intros pre.
  - cbn [encode_name fmap list_fmap app length]. apply resolves_zero.
    apply (index_middle pre rest x00).
  - cbn [encode_name fmap list_fmap].
    replace ((length_byte lab :: lab ++ encode_name labels) ++ rest)%list
      with (length_byte lab :: lab ++ encode_name labels ++ rest)%list
      by (cbn [app]; by rewrite <- app_assoc).
    rewrite <- (label_at_middle pre lab (encode_name labels ++ rest) (length_byte lab)).
    eapply resolves_label.
    + rewrite index_middle, b2z_length_byte by lia. reflexivity.
    + lia.
    + specialize (IH (pre ++ length_byte lab :: lab)%list).
      replace ((pre ++ length_byte lab :: lab) ++ encode_name labels ++ rest)%list
        with (pre ++ length_byte lab :: lab ++ encode_name labels ++ rest)%list in IH
        by (rewrite <- app_assoc; done).
      replace (len (pre ++ length_byte lab :: lab)%list) with (len pre + len lab + 1) in IH
        by (rewrite length_app; simpl; lia).
      replace (len pre + len (length_byte lab :: lab ++ encode_name labels)%list)
        with (len pre + len lab + 1 + len (encode_name labels))
        by (simpl; rewrite length_app; lia).
      exact IH.
Qed.

(** X4.  Decoding inverts encoding.  For labels of 1 to 191 bytes written one
    after the other, each after its length byte, and closed by a zero byte,
    anywhere in a packet, [ParseLabels] returns the labels joined by dots
    and the offset just after the zero byte. *)
Theorem ParseLabels_encode_name (pre rest : list byte) (labels : list (list byte)) :
  Forall (fun lab => (1 <= length lab <= 191)%nat) labels ->
  ParseLabels (len pre) (pre ++ encode_name labels ++ rest) =
  Done (Join (string_of_list_byte <$> labels) ".",
        len pre + len (encode_name labels), None).
Proof.
  intros Hall. apply ParseLabels_iff_resolves.
  exists (string_of_list_byte <$> labels). split; [|done].
  by apply resolves_encode_name.
Qed.

Lemma ParseLabels_encode_name_witness :
  ParseLabels 2 ([xff; xff] ++ encode_name [[x77; x77; x77]; [x61; x62]] ++ [xee]) =
  Done ("www.ab", 2 + 8, None).
Proof.
  apply (ParseLabels_encode_name [xff; xff] [xee] [[x77; x77; x77]; [x61; x62]]).
  repeat constructor.
Defined.

Lemma Join_one (s : string) : Join [s] "." = s.
Proof. reflexivity. Qed.

(** X5.  At a compression pointer whose target resolves to a name,
    [ParseLabels] returns that same name and the offset just after the two
    bytes of the pointer, wherever the encoding of the target ends. *)
Theorem ParseLabels_through_pointer (payload : list byte) (offset l b : Z)
    (name : string) (off : Z) :
  index payload offset = Some l -> 192 <= l ->
  index payload (offset + 1) = Some b ->
  ParseLabels (pointer_target l b) payload = Done (name, off, None) ->
  ParseLabels offset payload = Done (name, offset + 2, None).
Proof.
  intros Hl Hptr Hb Htarget.
  apply ParseLabels_iff_resolves in Htarget as (ls & Hr & ->).
  apply ParseLabels_iff_resolves. exists [Join ls "."]. split.
  - by eapply resolves_pointer.
  - by rewrite Join_one.
Qed.

Lemma ParseLabels_through_pointer_witness :
  ParseLabels 29 sample_message = Done ("example.com", 29 + 2, None).
Proof.
  apply (ParseLabels_through_pointer sample_message 29 192 12 "example.com" 25).
  - reflexivity.
  - lia.
  - reflexivity.
  - reflexivity.
Defined.

(** *** The cursor of the answer section *)

Lemma slice_from_Some (payload : list byte) (lo : Z) (s : slice) :
  slice_from payload lo = Some s -> 0 <= lo <= len payload /\ slen s = len payload - lo.
Proof.
  unfold slice_from, s_from, whole. cbn [backing slen].
  destruct (0 <=? lo) eqn:E1; [|done]. destruct (lo <=? len payload) eqn:E2; [|done].
  cbn [andb]. intros [= <-]. apply Z.leb_le in E1. apply Z.leb_le in E2. cbn [slen]. lia.
Qed.

Lemma DecodeAnswer_loop_acc (payload : list byte) (n : nat) :
  forall (offset : Z) (acc : list DnsAnswer),
    DecodeAnswer_loop payload n offset acc =
    match DecodeAnswer_loop payload n offset [] with
    | Done (answers, off, err) => Done ((acc ++ answers)%list, off, err)
    | Panic => Panic
    | OutOfFuel => OutOfFuel
    end.
Proof.
  induction n as [|n IH]; intros offset acc.
  - cbn [DecodeAnswer_loop]. by rewrite app_nil_r.
  - cbn [DecodeAnswer_loop]. run_cases; try done; try (by rewrite app_nil_r);
      try apply IH.
    rewrite (IH _ (acc ++ _)%list), (IH _ ([] ++ _)%list).
    destruct (DecodeAnswer_loop payload n _ []) as [[[a' o'] e']| |]; [|done|done].
    by rewrite <- app_assoc.
Qed.

(** X6.  Decoding [n + m] records is decoding [n] records and then [m]
    records from the offset the first decoding returns: the answers are
    appended, the offset and the error are those of the second decoding. *)
Theorem DecodeAnswer_sequential (payload : list byte) (n m start : Z)
    (answers : list DnsAnswer) (off : Z) :
  0 <= n -> 0 <= m ->
  DecodeAnswer n start payload = Done (answers, off, None) ->
  DecodeAnswer (n + m) start payload =
  match DecodeAnswer m off payload with
  | Done (answers', off', err) => Done ((answers ++ answers')%list, off', err)
  | Panic => Panic
  | OutOfFuel => OutOfFuel
  end.
Proof.
  intros Hn Hm. unfold DecodeAnswer. intros H.
  rewrite Z2Nat.inj_add by lia.
  rewrite DecodeAnswer_loop_add, H. apply DecodeAnswer_loop_acc.
Qed.

Lemma DecodeAnswer_sequential_witness :
  DecodeAnswer (1 + 1) 0 (record_A ++ record_A) =
  match DecodeAnswer 1 15 (record_A ++ record_A) with
  | Done (answers', off', err) => Done (([answer_A] ++ answers')%list, off', err)
  | Panic => Panic
  | OutOfFuel => OutOfFuel
  end.
Proof.
  apply (DecodeAnswer_sequential (record_A ++ record_A) 1 1 0 [answer_A] 15).
  - lia.
  - lia.
  - reflexivity.
Defined.

Lemma DecodeAnswer_loop_bounds (payload : list byte) (n : nat) :
  forall (offset : Z) (acc answers : list DnsAnswer) (off : Z) (err : option error),
    DecodeAnswer_loop payload n offset acc = Done (answers, off, err) ->
    (off = offset \/ offset < off <= len payload) /\
    (length acc <= length answers <= length acc + n)%nat.
Proof.
  induction n as [|n IH]; intros offset acc answers off err.
  - cbn [DecodeAnswer_loop]. intros [= <- <- <-]. split; [by left | lia].
  - cbn [DecodeAnswer_loop]. run_cases; try done;
      try (intros [= <- <- <-]; split; [by left | lia]).
    all: intros H; apply IH in H as [Hoff Hlen];
      try rewrite length_app in Hlen; cbn in Hlen; (split; [|lia]).
    all: first [exact Hoff | right].
    repeat match goal with
    | Hp : ParseLabels _ _ = Done (_, _, None) |- _ =>
        apply ParseLabels_result in Hp; cbn in Hp
    | Hs : slice_from _ _ = Some _ |- _ => apply slice_from_Some in Hs
    | Hb : be16 _ (_ + 8) (_ + 10) = Done _ |- _ =>
        apply be16_done in Hb as (_ & _ & ->); [|lia]
    | Hc : (_ <? _) = false |- _ => apply Z.ltb_ge in Hc
    end.
    match goal with H : context [word16_at ?p ?i] |- _ =>
      pose proof (word16_at_range p i) end.
    lia.
Qed.

(** X7.  Whatever [DecodeAnswer] returns, the offset is the start offset or
    lies after it and inside the packet, and there are at most [ancount]
    answers (none for a count that is not positive). *)
Theorem DecodeAnswer_bounds (payload : list byte) (ancount start : Z)
    (answers : list DnsAnswer) (off : Z) (err : option error) :
  DecodeAnswer ancount start payload = Done (answers, off, err) ->
  (off = start \/ start < off <= len payload) /\
  len answers <= Z.max ancount 0.
Proof.
  unfold DecodeAnswer. intros H. apply DecodeAnswer_loop_bounds in H as [Hoff Hlen].
  split; [done|]. cbn in Hlen. lia.
Qed.

Lemma DecodeAnswer_bounds_witness :
  (45 = 29 \/ 29 < 45 <= len sample_message) /\
  len [mkDnsAnswer "example.com" "A" 1 3600 "93.184.216.34"] <= Z.max 1 0.
Proof.
  apply (DecodeAnswer_bounds sample_message 1 29 _ 45 None). reflexivity.
Defined.

(** *** Records that are cut short, and records that are not parsed *)

Lemma lor_shiftl (k hi lo : Z) :
  0 <= k -> 0 <= lo < 2 ^ k -> Z.lor lo (Z.shiftl hi k) = hi * 2 ^ k + lo.
Proof.
  intros Hk Hlo. rewrite Z.shiftl_mul_pow2 by lia.
  rewrite Z.lor_comm, <- Z.add_nocarry_lor; [done|].
  apply Z.bits_inj'. intros n Hn. rewrite Z.land_spec, Z.bits_0.
  destruct (decide (n < k)) as [Hlt | Hge].
  - rewrite Z.mul_pow2_bits_low by lia. done.
  - destruct (decide (lo = 0)) as [-> | Hnz].
    + by rewrite Z.bits_0, andb_false_r.
    + rewrite (Z.bits_above_log2 lo n); [by rewrite andb_false_r | tauto |].
      assert (Z.log2 lo < k) by (apply Z.log2_lt_pow2; [lia | tauto]). lia.
Qed.

Lemma be32_word (payload : list byte) (lo hi : Z) (i : nat) :
  lo = Z.of_nat i -> hi = lo + 4 -> hi <= len payload ->
  be32 payload lo hi = Done (word32_at payload i).
Proof.
  intros -> -> Hhi. unfold be32. rewrite slice_of_inside by lia.
  cbn [mbind run_bind must]. unfold Uint32, s_index. cbn [backing slen].
  replace (Z.of_nat i + 4 - Z.of_nat i) with 4 by lia. cbn [Z.leb Z.ltb Z.compare andb Pos.compare Pos.compare_cont].
  rewrite !lookup_drop, Nat2Z.id.
  change (Z.to_nat 3) with 3%nat. change (Z.to_nat 0) with 0%nat.
  change (Z.to_nat 1) with 1%nat. change (Z.to_nat 2) with 2%nat.
  rewrite Nat.add_0_r.
  destruct (nth_lookup_or_length payload (i + 3) x00) as [-> | ?]; [|lia].
  destruct (nth_lookup_or_length payload i x00) as [-> | ?]; [|lia].
  destruct (nth_lookup_or_length payload (i + 1) x00) as [-> | ?]; [|lia].
  destruct (nth_lookup_or_length payload (i + 2) x00) as [-> | ?]; [|lia].
  cbn [fmap option_fmap option_map mbind option_bind must]. f_equal.
  pose proof (b2z_range (nth i payload x00)).
  pose proof (b2z_range (nth (i + 1) payload x00)).
  pose proof (b2z_range (nth (i + 2) payload x00)).
  pose proof (b2z_range (nth (i + 3) payload x00)).
  rewrite (lor_shiftl 8) by lia. rewrite (lor_shiftl 16) by lia.
  rewrite (lor_shiftl 24) by lia. unfold word32_at. lia.
Qed.

Lemma ParseRdata_default (rdatatype : string) (rdata : slice) (payload : list byte)
    (rdata_offset : Z) :
  rdatatype ∉ parsed_types ->
  ParseRdata rdatatype rdata payload rdata_offset = Done ("-", None).
Proof.
  intros Hno. unfold ParseRdata.
  repeat match goal with
  | |- context [String.eqb rdatatype ?s] =>
      destruct (String.eqb_spec rdatatype s) as [-> | _];
      [exfalso; apply Hno; unfold parsed_types; set_solver|]
  end.
  done.
Qed.

(** X8.  When the first record cannot be decoded, [DecodeAnswer] returns no
    answer, the start offset and the error: the error of the resolver for
    the owner name, answer-too-short when fewer than 10 bytes follow the
    name, rdata-too-short when fewer bytes than rdlength follow the 10
    fixed bytes. *)
Theorem DecodeAnswer_record_cut_short (payload : list byte) (ancount start : Z) :
  1 <= ancount ->
  (forall name off e,
     ParseLabels start payload = Done (name, off, Some e) ->
     DecodeAnswer ancount start payload = Done ([], start, Some e)) /\
  (forall name offset_next,
     ParseLabels start payload = Done (name, offset_next, None) ->
     len payload - offset_next < 10 ->
     DecodeAnswer ancount start payload =
     Done ([], start, Some ErrDecodeDnsAnswerTooShort)) /\
  (forall name offset_next,
     ParseLabels start payload = Done (name, offset_next, None) ->
     10 <= len payload - offset_next ->
     len payload - (offset_next + 10) < word16_at payload (Z.to_nat offset_next + 8) ->
     DecodeAnswer ancount start payload =
     Done ([], start, Some ErrDecodeDnsAnswerRdataTooShort)).
Proof.
  intros Hn. unfold DecodeAnswer.
  destruct (Z.to_nat ancount) as [|n] eqn:En; [lia|]. clear En.
  split; [|split].
  - intros name off e Hname. cbn [DecodeAnswer_loop]. by rewrite Hname.
  - intros name offset_next Hname Hshort.
    pose proof (ParseLabels_result _ _ _ _ _ Hname) as Hoff. cbn in Hoff.
    cbn [DecodeAnswer_loop]. rewrite Hname. cbn [mbind run_bind].
    rewrite (slice_from_inside payload offset_next) by lia.
    cbn [mbind run_bind must slen].
    by replace (len payload - offset_next <? 10) with true by (symmetry; apply Z.ltb_lt; lia).
  - intros name offset_next Hname Hfixed Hshort.
    pose proof (ParseLabels_result _ _ _ _ _ Hname) as Hoff. cbn in Hoff.
    cbn [DecodeAnswer_loop]. rewrite Hname. cbn [mbind run_bind].
    rewrite !slice_from_inside by lia. cbn [mbind run_bind must slen].
    replace (len payload - offset_next <? 10) with false by (symmetry; apply Z.ltb_ge; lia).
    rewrite (be16_word' payload offset_next (offset_next + 2) (Z.to_nat offset_next)) by lia.
    rewrite (be16_word' payload (offset_next + 2) (offset_next + 4) (Z.to_nat offset_next + 2))
      by lia.
    rewrite (be32_word payload (offset_next + 4) (offset_next + 8) (Z.to_nat offset_next + 4))
      by lia.
    rewrite (be16_word' payload (offset_next + 8) (offset_next + 10) (Z.to_nat offset_next + 8))
      by lia.
    cbn [mbind run_bind must slen].
    by replace (len payload - (offset_next + 10) <? _) with true
      by (symmetry; apply Z.ltb_lt; lia).
Qed.

Lemma DecodeAnswer_record_cut_short_witness :
  DecodeAnswer 1 0 [xc0; x00] =
    Done ([], 0, Some ErrDecodeDnsLabelInvalidOffsetInfiniteLoop) /\
  DecodeAnswer 2 29 (take 40 sample_message) =
    Done ([], 29, Some ErrDecodeDnsAnswerTooShort) /\
  DecodeAnswer 2 29 (take 43 sample_message) =
    Done ([], 29, Some ErrDecodeDnsAnswerRdataTooShort).
Proof.
  split; [|split].
  - apply (proj1 (DecodeAnswer_record_cut_short [xc0; x00] 1 0 ltac:(lia)) "" 0).
    reflexivity.
  - apply (proj1 (proj2 (DecodeAnswer_record_cut_short (take 40 sample_message) 2 29
                           ltac:(lia))) "example.com" 31).
    + reflexivity.
    + simpl. lia.
  - apply (proj2 (proj2 (DecodeAnswer_record_cut_short (take 43 sample_message) 2 29
                           ltac:(lia))) "example.com" 31).
    + reflexivity.
    + simpl. lia.
    + vm_compute. reflexivity.
Defined.

(** X9.  A record that fits in the packet and whose type is not OPT and has
    none of the nine names that [ParseRdata] knows is decoded whatever its
    rdata bytes are: the answer has the owner name, the name of the type, the
    class, the ttl and the rdata "-", and the offset is just after the
    rdata. *)
Theorem DecodeAnswer_unparsed_type (payload : list byte) (start : Z)
    (name : string) (offset_next : Z) :
  let t := word16_at payload (Z.to_nat offset_next) in
  let rdlength := word16_at payload (Z.to_nat offset_next + 8) in
  ParseLabels start payload = Done (name, offset_next, None) ->
  offset_next + 10 + rdlength <= len payload ->
  t <> 41 ->
  RdatatypeToString t ∉ parsed_types ->
  DecodeAnswer 1 start payload =
  Done ([mkDnsAnswer name (RdatatypeToString t)
           (word16_at payload (Z.to_nat offset_next + 2))
           (word32_at payload (Z.to_nat offset_next + 4)) "-"],
        offset_next + 10 + rdlength, None).
Proof.
  intros t rdlength Hname Hfit Hopt Htype.
  pose proof (ParseLabels_result _ _ _ _ _ Hname) as Hoff. cbn in Hoff.
  assert (Hrd : 0 <= rdlength) by apply word16_at_range.
  unfold DecodeAnswer. change (Z.to_nat 1) with 1%nat.
  cbn [DecodeAnswer_loop]. rewrite Hname. cbn [mbind run_bind].
  rewrite !slice_from_inside by lia. cbn [mbind run_bind must slen].
  replace (len payload - offset_next <? 10) with false by (symmetry; apply Z.ltb_ge; lia).
  rewrite (be16_word' payload offset_next (offset_next + 2) (Z.to_nat offset_next)) by lia.
  rewrite (be16_word' payload (offset_next + 2) (offset_next + 4) (Z.to_nat offset_next + 2))
    by lia.
  rewrite (be32_word payload (offset_next + 4) (offset_next + 8) (Z.to_nat offset_next + 4))
    by lia.
  rewrite (be16_word' payload (offset_next + 8) (offset_next + 10) (Z.to_nat offset_next + 8))
    by lia.
  cbn [mbind run_bind must slen]. fold t. fold rdlength.
  replace (len payload - (offset_next + 10) <? rdlength) with false
    by (symmetry; apply Z.ltb_ge; lia).
  rewrite slice_of_inside by lia. cbn [mbind run_bind must].
  replace (t =? 41) with false by (symmetry; apply Z.eqb_neq; done).
  rewrite ParseRdata_default by done. cbn [mbind run_bind]. done.
Qed.

Lemma DecodeAnswer_unparsed_type_witness :
  DecodeAnswer 1 0 [x00; x00; x0d; x00; x01; x00; x00; x01; x00; x00; x02; xc0; xc0] =
  Done ([mkDnsAnswer "" "HINFO" 1 256 "-"], 1 + 10 + 2, None).
Proof.
  apply (DecodeAnswer_unparsed_type
           [x00; x00; x0d; x00; x01; x00; x00; x01; x00; x00; x02; xc0; xc0] 0 "" 1).
  - reflexivity.
  - vm_compute. discriminate.
  - vm_compute. discriminate.
  - apply (bool_decide_unpack _). vm_compute. reflexivity.
Defined.

(** *** The decoder terminates *)

Lemma be16_has_fuel payload lo hi : be16 payload lo hi <> OutOfFuel.
Proof.
  unfold be16. destruct (slice_of payload lo hi) as [s|]; [|done].
  cbn [mbind run_bind must]. by destruct (Uint16 s).
Qed.

Lemma be32_has_fuel payload lo hi : be32 payload lo hi <> OutOfFuel.
Proof.
  unfold be32. destruct (slice_of payload lo hi) as [s|]; [|done].
  cbn [mbind run_bind must]. by destruct (Uint32 s).
Qed.

Lemma ParseAAAA_loop_has_fuel (rdata : slice) (n : nat) :
  forall (i : Z) (ip : list string),
    slen rdata - i <= Z.of_nat n -> ParseAAAA_loop rdata n i ip <> OutOfFuel.
Proof.
  induction n as [|n IH]; intros i ip Hfuel; cbn [ParseAAAA_loop].
  - by replace (i <? slen rdata) with false by (symmetry; apply Z.ltb_ge; lia).
  - destruct (i <? slen rdata) eqn:E; [|done].
    destruct (s_slice rdata i (i + 2)) as [s|]; [|done]. cbn [mbind run_bind must].
    destruct (Uint16 s) as [w|]; [|done]. cbn [mbind run_bind must].
    apply IH. lia.
Qed.

Ltac fuel_cases :=
  repeat match goal with
  | |- context [mbind _ (ParseLabels ?o ?p)] =>
      pose proof (ParseLabels_has_fuel o p);
      destruct (ParseLabels o p) as [[[? ?] [?|]]| |]; cbn [mbind run_bind]
  | |- context [mbind _ (be16 ?p ?a ?b)] =>
      pose proof (be16_has_fuel p a b);
      destruct (be16 p a b); cbn [mbind run_bind]
  | |- context [mbind _ (be32 ?p ?a ?b)] =>
      pose proof (be32_has_fuel p a b);
      destruct (be32 p a b); cbn [mbind run_bind]
  | |- context [mbind _ (must ?x)] =>
      destruct x; cbn [mbind run_bind must]
  | |- context [mbind _ (fmap _ (must ?x))] =>
      destruct x; cbn [mbind run_bind must fmap run_fmap]
  | |- context [if ?c then _ else _] => destruct c
  end.

Lemma ParseRdata_has_fuel rdatatype rdata payload rdata_offset :
  ParseRdata rdatatype rdata payload rdata_offset <> OutOfFuel.
Proof.
  unfold ParseRdata.
  repeat match goal with
  | |- context [String.eqb rdatatype ?s] => destruct (String.eqb rdatatype s)
  end; try done.
  all: try (unfold ParseSOA, ParsePTR, ParseTXT, ParseNS, ParseSRV, ParseMX, ParseCNAME;
            fuel_cases; done).
  unfold ParseAAAA.
  pose proof (ParseAAAA_loop_has_fuel rdata (Z.to_nat (slen rdata)) 0 [] ltac:(lia)).
  by destruct (ParseAAAA_loop rdata _ 0 []).
Qed.

Lemma DecodeAnswer_loop_has_fuel (payload : list byte) (n : nat) :
  forall (offset : Z) (answers : list DnsAnswer),
    DecodeAnswer_loop payload n offset answers <> OutOfFuel.
Proof.
  induction n as [|n IH]; intros offset answers; cbn [DecodeAnswer_loop]; [done|].
  repeat match goal with
  | |- context [mbind _ (ParseRdata ?a ?b ?c ?d)] =>
      pose proof (ParseRdata_has_fuel a b c d);
      destruct (ParseRdata a b c d) as [[? [?|]]| |]; cbn [mbind run_bind]
  | _ => progress fuel_cases
  end; try done; apply IH.
Qed.

(** X10.  [DecodeQuestion], [DecodeAnswer] and [ParseRdata] terminate on
    every input: none of the loops and recursive calls exhausts its bound. *)
Theorem decoder_terminates (payload : list byte) :
  DecodeQuestion payload <> OutOfFuel /\
  (forall ancount start : Z, DecodeAnswer ancount start payload <> OutOfFuel) /\
  (forall (rdatatype : string) (rdata : slice) (rdata_offset : Z),
     ParseRdata rdatatype rdata payload rdata_offset <> OutOfFuel).
Proof.
  split; [|split].
  - unfold DecodeQuestion. fuel_cases; done.
  - intros ancount start. apply DecodeAnswer_loop_has_fuel.
  - intros. apply ParseRdata_has_fuel.
Qed.

(** *** The errors the decoder reports *)

Lemma labels_loop_errors follow payload pointers :
  (forall ptr ptrs name off e,
     follow ptr ptrs = Done (name, off, Some e) ->
     e ∈ [ErrDecodeDnsLabelInvalidOffset; ErrDecodeDnsLabelInvalidOffsetInfiniteLoop;
          ErrDecodeDnsLabelTooShort]) ->
  forall (n : nat) (offset : Z) (labels : list string) name off e,
    labels_loop follow payload pointers n offset labels = Done (name, off, Some e) ->
    e ∈ [ErrDecodeDnsLabelInvalidOffset; ErrDecodeDnsLabelInvalidOffsetInfiniteLoop;
         ErrDecodeDnsLabelTooShort].
Proof.
  intros Hfollow n. induction n as [|n' IH]; intros offset labels name off e; [done|].
  destruct (labels_loop_step follow payload pointers n' offset labels)
    as [H|H|H|l H Hl Hb|l b H Hl Hb Hp|l b H Hl Hb Hp|l H Hl Hs|l H Hl Hs];
    try done.
  - intros [= <- <- <-]. apply list_elem_of_here.
  - intros [= <- <- <-]. apply list_elem_of_further, list_elem_of_here.
  - destruct (follow _ _) as [[[label x] [e'|]]| |] eqn:Ef; try done.
    cbn [after_follow mbind run_bind]. intros [= <- <- <-]. by eapply Hfollow.
  - intros [= <- <- <-]. do 2 apply list_elem_of_further. apply list_elem_of_here.
  - apply IH.
Qed.

Lemma ParseLabels_errors (offset : Z) (payload : list byte) name off e :
  ParseLabels offset payload = Done (name, off, Some e) ->
  e ∈ [ErrDecodeDnsLabelInvalidOffset; ErrDecodeDnsLabelInvalidOffsetInfiniteLoop;
       ErrDecodeDnsLabelTooShort].
Proof.
  unfold ParseLabels. generalize (∅ : gmap Z Z) as pointers. revert offset name off e.
  induction (S (Z.to_nat pointer_targets)) as [|d IH]; intros offset name off e pointers;
    [done|].
  rewrite _ParseLabels_S. apply labels_loop_errors.
  intros ptr ptrs nm x e'. apply IH.
Qed.

(** X11.  When [DecodeQuestion] returns no error the offset is at least 17
    and at most the length of the packet, and the qtype is a 16-bit value.
    With an error the name is empty, qtype and offset are 0, and the error
    is one of the three errors of the resolver or qtype-too-short. *)
Theorem DecodeQuestion_bounds (payload : list byte) (qname : string)
    (qtype off : Z) (err : option error) :
  DecodeQuestion payload = Done (qname, qtype, off, err) ->
  match err with
  | None => 17 <= off <= len payload /\ 0 <= qtype < 65536
  | Some e =>
      qname = "" /\ qtype = 0 /\ off = 0 /\
      e ∈ [ErrDecodeDnsLabelInvalidOffset; ErrDecodeDnsLabelInvalidOffsetInfiniteLoop;
           ErrDecodeDnsLabelTooShort; ErrDecodeQuestionQtypeTooShort]
  end.
Proof.
  unfold DecodeQuestion.
  destruct (ParseLabels DnsLen payload) as [[[nm e] [er|]]| |] eqn:Hname;
    cbn [mbind run_bind]; try done.
  - intros [= <- <- <- <-]. repeat split; try done.
    apply ParseLabels_errors in Hname.
    apply list_elem_of_In. apply list_elem_of_In in Hname.
    cbn [In] in *. tauto.
  - pose proof (ParseLabels_result _ _ _ _ _ Hname) as Hoff. cbn in Hoff.
    unfold DnsLen in Hoff.
    rewrite slice_from_inside by lia. cbn [mbind run_bind must slen].
    destruct (len payload - e <? 4) eqn:E4.
    + intros [= <- <- <- <-]. repeat split; try done.
      do 3 apply list_elem_of_further. apply list_elem_of_here.
    + apply Z.ltb_ge in E4.
      rewrite (be16_word' payload e (e + 2) (Z.to_nat e)) by lia.
      cbn [mbind run_bind]. intros [= <- <- <- <-].
      pose proof (word16_at_range payload (Z.to_nat e)). lia.
Qed.

Lemma DecodeQuestion_bounds_witness :
  17 <= 29 <= len sample_message /\ 0 <= 1 < 65536.
Proof.
  apply (DecodeQuestion_bounds sample_message "example.com" 1 29 None). reflexivity.
Defined.

Ltac label_error :=
  match goal with
  | H : ParseLabels _ _ = Done (_, _, Some ?e) |- ?e ∈ _ =>
      apply ParseLabels_errors in H; apply list_elem_of_In;
      apply list_elem_of_In in H; cbn [In] in *; tauto
  end.

Lemma ParseRdata_errors rdatatype rdata payload rdata_offset s e :
  ParseRdata rdatatype rdata payload rdata_offset = Done (s, Some e) ->
  e ∈ [ErrDecodeDnsLabelInvalidOffset; ErrDecodeDnsLabelInvalidOffsetInfiniteLoop;
       ErrDecodeDnsLabelTooShort].
Proof.
  unfold ParseRdata.
  repeat match goal with
  | |- context [String.eqb rdatatype ?x] => destruct (String.eqb rdatatype x)
  end; try done.
  all: try (unfold ParseSOA, ParsePTR, ParseTXT, ParseNS, ParseSRV, ParseMX, ParseCNAME,
              ParseA;
            repeat match goal with
            | |- context [mbind _ (fmap _ (must ?x))] =>
                destruct x; cbn [mbind run_bind must fmap run_fmap]
            | _ => progress run_cases
            end; try done; intros [= <- <-]; label_error).
  unfold ParseAAAA. by destruct (ParseAAAA_loop rdata _ 0 []).
Qed.

Lemma DecodeAnswer_loop_errors (payload : list byte) (n : nat) :
  forall (offset : Z) (acc answers : list DnsAnswer) (off : Z) (e : error),
    DecodeAnswer_loop payload n offset acc = Done (answers, off, Some e) ->
    e ∈ [ErrDecodeDnsLabelInvalidOffset; ErrDecodeDnsLabelInvalidOffsetInfiniteLoop;
         ErrDecodeDnsLabelTooShort; ErrDecodeDnsAnswerTooShort;
         ErrDecodeDnsAnswerRdataTooShort].
Proof.
  induction n as [|n IH]; intros offset acc answers off e; cbn [DecodeAnswer_loop];
    [done|].
  run_cases; try done; try apply IH; intros [= <- <- <-].
  all: try match goal with
       | H : ParseRdata _ _ _ _ = Done (_, Some _) |- _ => apply ParseRdata_errors in H
       | H : ParseLabels _ _ = Done (_, _, Some _) |- _ => apply ParseLabels_errors in H
       end.
  all: apply list_elem_of_In;
    try match goal with H : _ ∈ _ |- _ => apply list_elem_of_In in H end;
    cbn [In] in *; tauto.
Qed.

(** X12.  The errors of the decoder.  [ParseLabels] and every parser of
    resource data report the three label errors only; [DecodeAnswer]
    reports these, answer-too-short and rdata-too-short only. *)
Theorem decoder_errors (payload : list byte) :
  (forall offset name off e,
     ParseLabels offset payload = Done (name, off, Some e) ->
     e ∈ [ErrDecodeDnsLabelInvalidOffset; ErrDecodeDnsLabelInvalidOffsetInfiniteLoop;
          ErrDecodeDnsLabelTooShort]) /\
  (forall rdatatype rdata rdata_offset s e,
     ParseRdata rdatatype rdata payload rdata_offset = Done (s, Some e) ->
     e ∈ [ErrDecodeDnsLabelInvalidOffset; ErrDecodeDnsLabelInvalidOffsetInfiniteLoop;
          ErrDecodeDnsLabelTooShort]) /\
  (forall ancount start answers off e,
     DecodeAnswer ancount start payload = Done (answers, off, Some e) ->
     e ∈ [ErrDecodeDnsLabelInvalidOffset; ErrDecodeDnsLabelInvalidOffsetInfiniteLoop;
          ErrDecodeDnsLabelTooShort; ErrDecodeDnsAnswerTooShort;
          ErrDecodeDnsAnswerRdataTooShort]).
Proof.
  split; [|split].
  - intros offset name off e. apply ParseLabels_errors.
  - intros rdatatype rdata rdata_offset s e. apply ParseRdata_errors.
  - intros ancount start answers off e. apply DecodeAnswer_loop_errors.
Qed.

Lemma decoder_errors_witness :
  ErrDecodeDnsAnswerTooShort ∈
    [ErrDecodeDnsLabelInvalidOffset; ErrDecodeDnsLabelInvalidOffsetInfiniteLoop;
     ErrDecodeDnsLabelTooShort; ErrDecodeDnsAnswerTooShort;
     ErrDecodeDnsAnswerRdataTooShort].
Proof.
  apply (proj2 (proj2 (decoder_errors (take 40 sample_message))) 2 29 [] 29).
  reflexivity.
Defined.

(** *** The header keeps every bit of its 12 bytes *)

Lemma b2z_inj (b1 b2 : byte) : b2z b1 = b2z b2 -> b1 = b2.
Proof.
  unfold b2z. intros H. apply N2Z.inj in H.
  assert (Hs : Some b1 = Some b2) by (rewrite <- !Byte.of_to_N; by rewrite H).
  by injection Hs.
Qed.

Lemma word16_at_inj (p1 p2 : list byte) (i : nat) :
  word16_at p1 i = word16_at p2 i ->
  nth i p1 x00 = nth i p2 x00 /\ nth (S i) p1 x00 = nth (S i) p2 x00.
Proof.
  unfold word16_at. intros H.
  pose proof (b2z_range (nth i p1 x00)). pose proof (b2z_range (nth (S i) p1 x00)).
  pose proof (b2z_range (nth i p2 x00)). pose proof (b2z_range (nth (S i) p2 x00)).
  split; apply b2z_inj; lia.
Qed.

Lemma take_12 (p : list byte) :
  12 <= len p ->
  take 12 p = (fun i => nth i p x00) <$> seq 0 12.
Proof.
  intros H.
  do 12 (destruct p as [|? p]; [simpl in H; lia|]). reflexivity.
Qed.

Lemma DecodeDns_long (payload : list byte) (dh : DnsHeader) :
  DecodeDns payload = Done (dh, None) -> 12 <= len payload.
Proof.
  unfold DecodeDns, DnsLen. destruct (len payload <? 12) eqn:E; [done|].
  intros _. by apply Z.ltb_ge in E.
Qed.

(** X13.  The header loses nothing: two packets that decode to the same
    header with no error have the same first 12 bytes. *)
Theorem DecodeDns_injective (p1 p2 : list byte) (dh : DnsHeader) :
  DecodeDns p1 = Done (dh, None) -> DecodeDns p2 = Done (dh, None) ->
  take 12 p1 = take 12 p2.
Proof.
  intros H1 H2.
  pose proof (DecodeDns_long _ _ H1) as L1. pose proof (DecodeDns_long _ _ H2) as L2.
  rewrite DecodeDns_words in H1 by done. rewrite DecodeDns_words in H2 by done.
  cbv zeta in H1, H2. rewrite <- H2 in H1. clear H2.
  destruct (flags_layout (word16_at p1 2) (word16_at_range p1 2)) as [W1 _].
  destruct (flags_layout (word16_at p2 2) (word16_at_range p2 2)) as [W2 _].
  injection H1 as E0 Eqr Eop Eaa Etc Erd Era Ez Ead Ecd Erc E4 E6 E8 E10.
  assert (E2 : word16_at p1 2 = word16_at p2 2).
  { rewrite W1, W2, Eqr, Eop, Eaa, Etc, Erd, Era, Ez, Ead, Ecd, Erc. reflexivity. }
  apply word16_at_inj in E0 as [? ?]. apply word16_at_inj in E2 as [? ?].
  apply word16_at_inj in E4 as [? ?]. apply word16_at_inj in E6 as [? ?].
  apply word16_at_inj in E8 as [? ?]. apply word16_at_inj in E10 as [? ?].
  rewrite !take_12 by done. cbn [seq fmap list_fmap]. congruence.
Qed.

Lemma DecodeDns_injective_witness :
  take 12 sample_message = take 12 (take 30 sample_message).
Proof.
  apply (DecodeDns_injective sample_message (take 30 sample_message)
           (mkDnsHeader 4660 1 0 0 0 1 1 0 0 0 0 1 1 0 0)); reflexivity.
Defined.

(** *** The tables of names *)

Lemma fmap_snd_inj_on {K V : Type} (l : list (K * V)) (k1 k2 : K) (v : V) :
  NoDup (snd <$> l) -> (k1, v) ∈ l -> (k2, v) ∈ l -> k1 = k2.
Proof.
  induction l as [|[k v'] l IH]; intros Hnd H1 H2.
  - by apply elem_of_nil in H1.
  - cbn [fmap list_fmap snd] in Hnd. apply NoDup_cons in Hnd as [Hnotin Hnd].
    apply elem_of_cons in H1 as [H1 | H1]; apply elem_of_cons in H2 as [H2 | H2].
    + congruence.
    + injection H1 as -> ->. exfalso. apply Hnotin.
      apply list_elem_of_fmap. by exists (k2, v').
    + injection H2 as -> ->. exfalso. apply Hnotin.
      apply list_elem_of_fmap. by exists (k1, v').
    + by apply IH.
Qed.

Lemma table_names_inj (m : gmap Z string) (k1 k2 : Z) (v : string) :
  NoDup (snd <$> map_to_list m) -> m !! k1 = Some v -> m !! k2 = Some v -> k1 = k2.
Proof.
  intros Hnd H1 H2. apply elem_of_map_to_list in H1. apply elem_of_map_to_list in H2.
  by eapply fmap_snd_inj_on.
Qed.

Lemma table_not_unknown (m : gmap Z string) (k : Z) (v : string) :
  "UNKNOWN" ∉ (snd <$> map_to_list m) -> m !! k = Some v -> v <> "UNKNOWN".
Proof.
  intros Hno Hk ->. apply Hno. apply elem_of_map_to_list in Hk.
  apply list_elem_of_fmap. by exists (k, "UNKNOWN").
Qed.

Lemma Rdatatypes_names :
  NoDup (snd <$> map_to_list Rdatatypes) /\ "UNKNOWN" ∉ (snd <$> map_to_list Rdatatypes).
Proof. split; apply (bool_decide_unpack _); vm_compute; reflexivity. Qed.

Lemma Rcodes_names :
  NoDup (snd <$> map_to_list Rcodes) /\ "UNKNOWN" ∉ (snd <$> map_to_list Rcodes).
Proof. split; apply (bool_decide_unpack _); vm_compute; reflexivity. Qed.

(** X14.  A type code or an rcode is rendered "UNKNOWN" exactly when it is
    not in its table, and two codes with the same name are equal when one
    of them is in the table: no name is listed twice. *)
Theorem table_names (t1 t2 : Z) :
  (RdatatypeToString t1 = "UNKNOWN" <-> Rdatatypes !! t1 = None) /\
  (RcodeToString t1 = "UNKNOWN" <-> Rcodes !! t1 = None) /\
  (is_Some (Rdatatypes !! t1) -> RdatatypeToString t1 = RdatatypeToString t2 -> t1 = t2) /\
  (is_Some (Rcodes !! t1) -> RcodeToString t1 = RcodeToString t2 -> t1 = t2).
Proof.
  destruct Rdatatypes_names as [Hnd Hno]. destruct Rcodes_names as [Hnd' Hno'].
  unfold RdatatypeToString, RcodeToString. repeat split.
  - destruct (Rdatatypes !! t1) as [v|] eqn:E; [|done].
    intros ->. by apply (table_not_unknown _ _ _ Hno) in E.
  - by intros ->.
  - destruct (Rcodes !! t1) as [v|] eqn:E; [|done].
    intros ->. by apply (table_not_unknown _ _ _ Hno') in E.
  - by intros ->.
  - intros [v E]. rewrite E. destruct (Rdatatypes !! t2) as [v2|] eqn:E2.
    + intros ->. exact (table_names_inj _ _ _ _ Hnd E E2).
    + intros ->. by apply (table_not_unknown _ _ _ Hno) in E.
  - intros [v E]. rewrite E. destruct (Rcodes !! t2) as [v2|] eqn:E2.
    + intros ->. exact (table_names_inj _ _ _ _ Hnd' E E2).
    + intros ->. by apply (table_not_unknown _ _ _ Hno') in E.
Qed.

Lemma table_names_witness :
  RdatatypeToString 31 = "UNKNOWN" /\ (RdatatypeToString 28 = RdatatypeToString 28 -> 28 = 28).
Proof.
  split.
  - apply (proj2 (proj1 (table_names 31 0))). reflexivity.
  - apply (proj1 (proj2 (proj2 (table_names 28 28)))). exists "AAAA". reflexivity.
Defined.

Lemma Rdatatype_code (t c : Z) (name : string) :
  Rdatatypes !! c = Some name -> RdatatypeToString t = name -> t = c.
Proof.
  intros Hc Ht. destruct Rdatatypes_names as [Hnd Hno].
  unfold RdatatypeToString in Ht. destruct (Rdatatypes !! t) as [v|] eqn:E.
  - subst v. exact (table_names_inj _ _ _ _ Hnd E Hc).
  - subst name. by apply (table_not_unknown _ _ _ Hno) in Hc.
Qed.

(** X15.  The parser is chosen by the type code: 1 A, 28 AAAA, 5 CNAME,
    15 MX, 33 SRV, 2 NS, 16 TXT, 12 PTR, 6 SOA; for every other code the
    rdata is "-" with no error. *)
Theorem ParseRdata_by_code (t : Z) (rdata : slice) (payload : list byte) (rdata_offset : Z) :
  ParseRdata (RdatatypeToString t) rdata payload rdata_offset =
  if decide (t = 1) then ParseA rdata
  else if decide (t = 28) then ParseAAAA rdata
  else if decide (t = 5) then ParseCNAME rdata_offset payload
  else if decide (t = 15) then ParseMX rdata_offset payload
  else if decide (t = 33) then ParseSRV rdata_offset payload
  else if decide (t = 2) then ParseNS rdata_offset payload
  else if decide (t = 16) then ParseTXT rdata
  else if decide (t = 12) then ParsePTR rdata_offset payload
  else if decide (t = 6) then ParseSOA rdata_offset payload
  else Done ("-", None).
Proof.
  repeat case_decide; subst; try reflexivity.
  apply ParseRdata_default. intros Hin.
  apply list_elem_of_In in Hin. cbn [parsed_types In] in Hin.
  repeat match goal with
  | H : _ \/ _ |- _ => destruct H as [H | H]
  end; try done; symmetry in Hin;
    match goal with
    | H : ?t <> ?c, Hn : RdatatypeToString ?t = _ |- _ =>
        apply H; apply (Rdatatype_code t c _ eq_refl Hn)
    end.
Qed.

(** *** When a message is dropped *)

Lemma existsb_keys {V : Type} (m : gmap string V) (s : string) :
  existsb (fun kv => String.eqb s (fst kv)) (map_to_list m) = true <-> is_Some (m !! s).
Proof.
  rewrite existsb_exists. split.
  - intros ([k v] & Hin & Heq). cbn [fst] in Heq. apply String.eqb_eq in Heq as <-.
    apply list_elem_of_In, elem_of_map_to_list in Hin. eauto.
  - intros [v Hv]. exists (s, v). split.
    + by apply list_elem_of_In, elem_of_map_to_list.
    + apply String.eqb_refl.
Qed.

Lemma lookup_size_pos {V : Type} (m : gmap string V) (s : string) :
  is_Some (m !! s) -> (0 <? Z.of_nat (size m)) = true.
Proof.
  intros [v Hv]. apply Z.ltb_lt.
  destruct (decide (size m = 0%nat)) as [Hz | Hnz]; [|lia].
  apply map_size_empty_iff in Hz. subst m. by rewrite lookup_empty in Hv.
Qed.

Lemma CheckIfDrop_rules (regexp : Type) (MatchString : regexp -> string -> bool)
    (DnsQuery DnsReply : string) (p : FilteringProcessor regexp) (dm : DnsMessage) :
  CheckIfDrop MatchString DnsQuery DnsReply p dm = true <->
  (LogQueries (config p) = false /\ DNS_Type dm = DnsQuery) \/
  (LogReplies (config p) = false /\ DNS_Type dm = DnsReply) \/
  DNS_Rcode dm ∈ DropRcodes (config p) \/
  is_Some (listQueryIp p !! NetworkInfo_QueryIp dm) \/
  (dropDomains p = true /\
   (is_Some (listFqdns p !! DNS_Qname dm) \/
    exists k r, listDomainsRegex p !! k = Some r /\ MatchString r (DNS_Qname dm) = true)).
Proof.
  unfold CheckIfDrop.
  destruct (LogQueries (config p)) eqn:Eq, (String.eqb_spec (DNS_Type dm) DnsQuery) as [Hq|Hq];
    cbn [negb andb]; try (split; [intros _|done]; tauto).
  all: destruct (LogReplies (config p)) eqn:Er,
         (String.eqb_spec (DNS_Type dm) DnsReply) as [Hr|Hr];
    cbn [negb andb]; try (split; [intros _|done]; tauto).
  all: destruct (existsb (fun v => String.eqb v (DNS_Rcode dm)) (DropRcodes (config p)))
         eqn:Erc;
    [ split; [intros _|done]; right; right; left;
      apply existsb_exists in Erc as (v & Hin & Heq); apply String.eqb_eq in Heq as <-;
      by apply list_elem_of_In
    | assert (Hrc : DNS_Rcode dm ∉ DropRcodes (config p))
        by (intros Hin; apply list_elem_of_In in Hin;
            assert (Ht : existsb (fun v => String.eqb v (DNS_Rcode dm))
                           (DropRcodes (config p)) = true)
              by (apply existsb_exists; eexists; split; [done | apply String.eqb_refl]);
            congruence) ].
  all: destruct (existsb (fun kv => String.eqb (NetworkInfo_QueryIp dm) (fst kv))
                   (map_to_list (listQueryIp p))) eqn:Eip;
    [ apply existsb_keys in Eip; rewrite (lookup_size_pos _ _ Eip); cbn [andb];
      split; [intros _|done]; tauto
    | rewrite andb_false_r;
      assert (Hip : ~ is_Some (listQueryIp p !! NetworkInfo_QueryIp dm))
        by (intros Hs; apply existsb_keys in Hs; congruence) ].
  all: destruct (dropDomains p) eqn:Edd; [|split; [done | intros [[? ?]|[[? ?]|[?|[?|[? _]]]]]; first [done | congruence]]].
  all: destruct (existsb (fun kv => String.eqb (DNS_Qname dm) (fst kv))
                   (map_to_list (listFqdns p))) eqn:Efq;
    [ apply existsb_keys in Efq; split; [intros _|done]; tauto
    | assert (Hfq : ~ is_Some (listFqdns p !! DNS_Qname dm))
        by (intros Hs; apply existsb_keys in Hs; congruence) ].
  all: destruct (existsb (fun kv => MatchString (snd kv) (DNS_Qname dm))
                   (map_to_list (listDomainsRegex p))) eqn:Erx;
    [ split; [intros _|done];
      apply existsb_exists in Erx as ([k r] & Hin & Hm);
      apply list_elem_of_In, elem_of_map_to_list in Hin;
      do 4 right; split; [done|]; right; by exists k, r
    | split; [done|];
      intros [[? ?]|[[? ?]|[?|[?|[_ [?|(k & r & Hk & Hm)]]]]]]; try done; try congruence;
      assert (Ht : existsb (fun kv => MatchString (snd kv) (DNS_Qname dm))
                     (map_to_list (listDomainsRegex p)) = true)
        by (apply existsb_exists; exists (k, r); split;
            [by apply list_elem_of_In, elem_of_map_to_list | done]);
      congruence ].
Qed.

(** X16.  [CheckIfDrop] returns true exactly when queries are not logged and
    the message is a query, or replies are not logged and it is a reply, or
    its rcode is in [DropRcodes], or its query address is a key of
    [listQueryIp], or domains are dropped and its name is a key of
    [listFqdns] or is matched by one of the expressions of
    [listDomainsRegex].  The values stored under the keys play no part. *)
Theorem CheckIfDrop_iff (regexp : Type) (MatchString : regexp -> string -> bool)
    (DnsQuery DnsReply : string) (p : FilteringProcessor regexp) (dm : DnsMessage) :
  CheckIfDrop MatchString DnsQuery DnsReply p dm = true <->
  (LogQueries (config p) = false /\ DNS_Type dm = DnsQuery) \/
  (LogReplies (config p) = false /\ DNS_Type dm = DnsReply) \/
  DNS_Rcode dm ∈ DropRcodes (config p) \/
  is_Some (listQueryIp p !! NetworkInfo_QueryIp dm) \/
  (dropDomains p = true /\
   (is_Some (listFqdns p !! DNS_Qname dm) \/
    exists k r, listDomainsRegex p !! k = Some r /\ MatchString r (DNS_Qname dm) = true)).
Proof.
  split.
  - intros H. by apply CheckIfDrop_rules.
  - intros H. by apply CheckIfDrop_rules.
Qed.

Lemma CheckIfDrop_iff_witness :
  CheckIfDrop (fun (r : string) (s : string) => false) "QUERY" "REPLY"
    (mkFilteringProcessor (mkFilteringConfig true true ["NXDOMAIN"]) false ∅ ∅ ∅)
    (mkDnsMessage "QUERY" "NXDOMAIN" "example.com" "192.0.2.1") = true.
Proof.
  apply CheckIfDrop_iff. right. right. left. apply (bool_decide_unpack _).
  vm_compute. reflexivity.
Defined.

(** *** The parsers of resource data *)

(** X17.  [ParseTXT] stops with a panic on empty rdata.  Otherwise the first
    byte is a length: when that many bytes follow it in the backing array,
    the result is exactly those bytes as text, whatever comes after them
    and wherever the rdata ends; when fewer follow, it stops with a panic. *)
Theorem ParseTXT_first_string (rdata : slice) :
  (slen rdata <= 0 -> ParseTXT rdata = Panic) /\
  (forall (b : byte) (tail : list byte),
     1 <= slen rdata -> backing rdata = b :: tail ->
     (b2z b <= len tail ->
        ParseTXT rdata =
        Done (string_of_list_byte (take (Z.to_nat (b2z b)) tail), None)) /\
     (len tail < b2z b -> ParseTXT rdata = Panic)).
Proof.
  destruct rdata as [bs n]. cbn [slen backing]. split.
  - intros Hn. unfold ParseTXT, s_index. cbn [slen].
    by replace (0 <? n) with false by (symmetry; apply Z.ltb_ge; lia).
  - intros b tail Hn ->. pose proof (b2z_range b) as Hb.
    unfold ParseTXT.
    assert (Hidx : s_index (Slice (b :: tail) n) 0 = Some (b2z b)).
    { unfold s_index. cbn [slen backing].
      by replace (0 <? n) with true by (symmetry; apply Z.ltb_lt; lia). }
    rewrite Hidx. cbn [mbind run_bind must].
    unfold s_slice, cap. cbn [backing].
    replace (1 <=? b2z b + 1) with true by (symmetry; apply Z.leb_le; lia).
    cbn [Z.leb Z.compare andb]. split; intros Hlen.
    + replace (b2z b + 1 <=? len (b :: tail)) with true
        by (symmetry; apply Z.leb_le; cbn [length]; lia).
      cbn [mbind run_bind must]. unfold string_of, s_bytes. cbn [slen backing].
      change (Z.to_nat 1) with 1%nat. cbn [drop].
      by replace (b2z b + 1 - 1) with (b2z b) by lia.
    + by replace (b2z b + 1 <=? len (b :: tail)) with false
        by (symmetry; apply Z.leb_gt; cbn [length]; lia).
Qed.

Lemma ParseTXT_first_string_witness :
  ParseTXT (Slice [x02; x68; x69; x21] 4) = Done ("hi", None) /\
  ParseTXT (Slice [x02; x68; x69; x21] 1) = Done ("hi", None) /\
  ParseTXT (Slice [x05; x68] 2) = Panic /\
  ParseTXT (Slice [x05; x68] 0) = Panic.
Proof.
  split; [|split; [|split]].
  - apply (proj1 (proj2 (ParseTXT_first_string (Slice [x02; x68; x69; x21] 4))
                    x02 [x68; x69; x21] ltac:(simpl; lia) eq_refl)).
    vm_compute. discriminate.
  - apply (proj1 (proj2 (ParseTXT_first_string (Slice [x02; x68; x69; x21] 1))
                    x02 [x68; x69; x21] ltac:(simpl; lia) eq_refl)).
    vm_compute. discriminate.
  - apply (proj2 (proj2 (ParseTXT_first_string (Slice [x05; x68] 2))
                    x05 [x68] ltac:(simpl; lia) eq_refl)).
    vm_compute. reflexivity.
  - apply (proj1 (ParseTXT_first_string (Slice [x05; x68] 0))). simpl. lia.
Defined.

Lemma ParseAAAA_loop_groups (rdata : slice) (m : nat) :
  forall (n : nat) (i : Z) (ip : list string),
    (m <= n)%nat -> 0 <= i -> i + 2 * Z.of_nat m = slen rdata ->
    slen rdata <= cap rdata ->
    ParseAAAA_loop rdata n i ip =
    Done (ip ++ (hex <$> groups16 (take (2 * m) (drop (Z.to_nat i) (backing rdata)))))%list.
Proof.
  induction m as [|m IH]; intros n i ip Hmn Hi Hend Hcap.
  - replace (ParseAAAA_loop rdata n i ip) with (@Done (list string) ip).
    + cbn. by rewrite app_nil_r.
    + destruct n; cbn [ParseAAAA_loop];
        by replace (i <? slen rdata) with false by (symmetry; apply Z.ltb_ge; lia).
  - destruct n as [|n]; [lia|]. cbn [ParseAAAA_loop].
    replace (i <? slen rdata) with true by (symmetry; apply Z.ltb_lt; lia).
    pose proof Hcap as Hcap'. unfold cap in Hcap'.
    destruct (lookup_lt_is_Some_2 (backing rdata) (Z.to_nat i)) as [b0 H0]; [lia|].
    destruct (lookup_lt_is_Some_2 (backing rdata) (S (Z.to_nat i))) as [b1 H1]; [lia|].
    unfold s_slice, cap.
    replace (0 <=? i) with true by (symmetry; apply Z.leb_le; lia).
    replace (i <=? i + 2) with true by (symmetry; apply Z.leb_le; lia).
    replace (i + 2 <=? len (backing rdata)) with true by (symmetry; apply Z.leb_le; lia).
    cbn [andb mbind run_bind must]. unfold Uint16, s_index. cbn [slen backing].
    replace (i + 2 - i) with 2 by lia.
    cbn [Z.leb Z.ltb Z.compare Pos.compare Pos.compare_cont andb].
    rewrite !lookup_drop. change (Z.to_nat 1) with 1%nat. change (Z.to_nat 0) with 0%nat.
    rewrite Nat.add_0_r, Nat.add_1_r, H0, H1.
    cbn [fmap option_fmap option_map mbind option_bind must run_bind].
    rewrite lor_shiftl_8 by apply b2z_range.
    rewrite (IH n (i + 2) (ip ++ [hex (256 * b2z b0 + b2z b1)])%list) by lia.
    f_equal. rewrite <- app_assoc. f_equal.
    rewrite (drop_S _ b0 (Z.to_nat i)) by done.
    rewrite (drop_S _ b1 (S (Z.to_nat i))) by done.
    replace (2 * S m)%nat with (S (S (2 * m))) by lia.
    cbn [take groups16 fmap list_fmap app].
    by replace (Z.to_nat (i + 2)) with (S (S (Z.to_nat i))) by lia.
Qed.

(** X18.  On rdata of even length [ParseAAAA] returns, with no error, the
    16-bit big-endian groups of the rdata in hexadecimal, joined by colons:
    one group for every two bytes, no group left out or shortened. *)
Theorem ParseAAAA_groups (rdata : slice) :
  0 <= slen rdata <= cap rdata -> Z.even (slen rdata) = true ->
  ParseAAAA rdata = Done (Join (hex <$> groups16 (s_bytes rdata)) ":", None).
Proof.
  intros Hlen Heven. unfold ParseAAAA.
  apply Z.even_spec in Heven as [k Hk].
  rewrite (ParseAAAA_loop_groups rdata (Z.to_nat k)) by lia.
  cbn [mbind run_bind app drop]. unfold s_bytes. change (Z.to_nat 0) with 0%nat.
  cbn [drop]. by replace (2 * Z.to_nat k)%nat with (Z.to_nat (slen rdata)) by lia.
Qed.

Lemma ParseAAAA_groups_witness :
  ParseAAAA (Slice [x20; x01; x0d; xb8; x00; x00; x00; x01; xff] 8) =
  Done ("2001:db8:0:1", None).
Proof.
  apply (ParseAAAA_groups (Slice [x20; x01; x0d; xb8; x00; x00; x00; x01; xff] 8)).
  - vm_compute. split; discriminate.
  - reflexivity.
Defined.

Lemma cyclic_inside payload o : cyclic payload o -> 0 <= o < len payload.
Proof.
  intros (k & j & a & Hk & Hj). destruct k as [|k]; cbn [walk] in Hk.
  - injection Hk as <-. cbn [walk] in Hj.
    destruct (successor payload o) as [o'|] eqn:Es; [|done]. by eapply successor_inside.
  - destruct (successor payload o) as [o'|] eqn:Es; [|done]. by eapply successor_inside.
Qed.

(** X19.  The parsers of CNAME, NS, PTR and SOA return the infinite-loop
    error when the name at the rdata offset runs into a cycle; so do the
    parsers of MX and SRV when the name after their 2 and 6 fixed bytes
    does. *)
Theorem rdata_names_cyclic (payload : list byte) :
  (forall o : Z, cyclic payload o ->
     ParseCNAME o payload = Done ("", Some ErrDecodeDnsLabelInvalidOffsetInfiniteLoop) /\
     ParseNS o payload = Done ("", Some ErrDecodeDnsLabelInvalidOffsetInfiniteLoop) /\
     ParsePTR o payload = Done ("", Some ErrDecodeDnsLabelInvalidOffsetInfiniteLoop) /\
     ParseSOA o payload = Done ("", Some ErrDecodeDnsLabelInvalidOffsetInfiniteLoop)) /\
  (forall o : Z, 0 <= o -> cyclic payload (o + 2) ->
     ParseMX o payload = Done ("", Some ErrDecodeDnsLabelInvalidOffsetInfiniteLoop)) /\
  (forall o : Z, 0 <= o -> cyclic payload (o + 6) ->
     ParseSRV o payload = Done ("", Some ErrDecodeDnsLabelInvalidOffsetInfiniteLoop)).
Proof.
  split; [|split].
  - intros o Hc. apply ParseLabels_cyclic in Hc.
    unfold ParseCNAME, ParseNS, ParsePTR, ParseSOA. by rewrite Hc.
  - intros o Ho Hc. pose proof (cyclic_inside _ _ Hc). apply ParseLabels_cyclic in Hc.
    unfold ParseMX. rewrite Hc.
    by rewrite (be16_word' payload o (o + 2) (Z.to_nat o)) by lia.
  - intros o Ho Hc. pose proof (cyclic_inside _ _ Hc). apply ParseLabels_cyclic in Hc.
    unfold ParseSRV. rewrite Hc.
    rewrite (be16_word' payload o (o + 2) (Z.to_nat o)) by lia.
    rewrite (be16_word' payload (o + 2) (o + 4) (Z.to_nat o + 2)) by lia.
    by rewrite (be16_word' payload (o + 4) (o + 6) (Z.to_nat o + 4)) by lia.
Qed.

Lemma rdata_names_cyclic_witness :
  ParseMX 0 [x00; x0a; xc0; x02] =
  Done ("", Some ErrDecodeDnsLabelInvalidOffsetInfiniteLoop).
Proof.
  apply (proj1 (proj2 (rdata_names_cyclic [x00; x0a; xc0; x02])) 0).
  - lia.
  - exists 0%nat, 0%nat, 2. split; reflexivity.
Defined.

(** *** Building the filtering stage *)

Section Loading_facts.

Variable regexp : Type.
Variable MustCompile : string -> option regexp.
Variable ToLower : string -> string.
Variable open_lines : string -> option (list string).
Variable MatchString : regexp -> string -> bool.
Variables DnsQuery DnsReply : string.

Local Abbreviation New := (NewFilteringProcessor MustCompile ToLower open_lines).
Local Abbreviation Check := (CheckIfDrop MatchString DnsQuery DnsReply).

Lemma length_pos (s : string) : s <> "" -> (0 <? Z.of_nat (String.length s)) = true.
Proof. destruct s; [done|]. intros _. apply Z.ltb_lt. cbn [String.length]. lia. Qed.

Lemma length_zero (s : string) : s = "" -> (0 <? Z.of_nat (String.length s)) = false.
Proof. by intros ->. Qed.

Lemma load_fqdns_lookup (lines : list string) :
  forall (m : gmap string bool) (s : string),
    is_Some (load_fqdns ToLower lines m !! s) <->
    is_Some (m !! s) \/ exists line, line ∈ lines /\ s = ToLower line.
Proof.
  induction lines as [|l lines IH]; intros m s; cbn [load_fqdns].
  - split; [by left|]. intros [H | (line & Hin & _)]; [done|].
    by apply elem_of_nil in Hin.
  - rewrite IH. split.
    + intros [H | (line & Hin & ->)].
      * destruct (decide (ToLower l = s)) as [<- | Hne].
        -- right. exists l. split; [apply list_elem_of_here | done].
        -- left. by rewrite lookup_insert_ne in H.
      * right. exists line. split; [by apply list_elem_of_further | done].
    + intros [H | (line & Hin & ->)].
      * left. destruct (decide (ToLower l = s)) as [<- | Hne].
        -- rewrite lookup_insert_eq. eauto.
        -- by rewrite lookup_insert_ne.
      * apply elem_of_cons in Hin as [-> | Hin].
        -- left. rewrite lookup_insert_eq. eauto.
        -- right. eauto.
Qed.

Lemma load_domains_keeps (lines : list string) :
  forall (m m' : gmap string regexp) (k : string) (r : regexp),
    load_domains MustCompile ToLower lines m = Done m' ->
    m !! k = Some r -> MustCompile k = Some r -> m' !! k = Some r.
Proof.
  induction lines as [|l lines IH]; intros m m' k r Hload Hk Hc; cbn [load_domains] in Hload.
  - by injection Hload as <-.
  - destruct (MustCompile (ToLower l)) as [rl|] eqn:El; [|done].
    cbn [mbind run_bind must] in Hload. apply (IH _ _ _ _ Hload); [|done].
    destruct (decide (ToLower l = k)) as [<- | Hne].
    + rewrite lookup_insert_eq. congruence.
    + by rewrite lookup_insert_ne.
Qed.

Lemma load_domains_lookup (lines : list string) :
  forall (m m' : gmap string regexp) (line : string),
    load_domains MustCompile ToLower lines m = Done m' -> line ∈ lines ->
    exists r, MustCompile (ToLower line) = Some r /\ m' !! ToLower line = Some r.
Proof.
  induction lines as [|l lines IH]; intros m m' line Hload Hin.
  - by apply elem_of_nil in Hin.
  - cbn [load_domains] in Hload.
    destruct (MustCompile (ToLower l)) as [r|] eqn:Er; [|done].
    cbn [mbind run_bind must] in Hload.
    apply elem_of_cons in Hin as [-> | Hin]; [|by eapply IH].
    exists r. split; [done|].
    apply (load_domains_keeps _ _ _ _ _ Hload); [apply lookup_insert_eq | done].
Qed.

Lemma load_domains_panic (lines : list string) :
  forall (m : gmap string regexp) (line : string),
    line ∈ lines -> MustCompile (ToLower line) = None ->
    load_domains MustCompile ToLower lines m = Panic.
Proof.
  induction lines as [|l lines IH]; intros m line Hin Hbad.
  - by apply elem_of_nil in Hin.
  - cbn [load_domains].
    destruct (MustCompile (ToLower l)) as [r|] eqn:Er; [|done].
    cbn [mbind run_bind must].
    apply elem_of_cons in Hin as [-> | Hin]; [congruence | by eapply IH].
Qed.

Lemma load_domains_has_fuel (lines : list string) :
  forall m : gmap string regexp,
    load_domains MustCompile ToLower lines m <> OutOfFuel.
Proof.
  induction lines as [|l lines IH]; intros m; cbn [load_domains]; [done|].
  destruct (MustCompile (ToLower l)); [apply IH | done].
Qed.

Lemma load_query_ips_nil (lines : list string) (m : option (gmap string bool)) :
  load_query_ips ToLower lines None = Done m -> lines = [] /\ m = None.
Proof. destruct lines; [|done]. by intros [= <-]. Qed.

(** What [LoadDomainsList] leaves in the processor. *)
Lemma LoadDomainsList_fields (files : FilteringFiles) (d d' : Building regexp) :
  LoadDomainsList MustCompile ToLower open_lines files d = Done d' ->
  b_listQueryIp d' = b_listQueryIp d /\
  (forall lines, DropFqdnFile files <> "" ->
     open_lines (DropFqdnFile files) = Some lines ->
     b_dropDomains d' = true /\
     b_listFqdns d' = load_fqdns ToLower lines (b_listFqdns d)) /\
  ((DropFqdnFile files = "" \/ open_lines (DropFqdnFile files) = None) ->
     b_listFqdns d' = b_listFqdns d) /\
  (forall lines, DropDomainFile files <> "" ->
     open_lines (DropDomainFile files) = Some lines ->
     b_dropDomains d' = true /\
     load_domains MustCompile ToLower lines (b_listDomainsRegex d) =
       Done (b_listDomainsRegex d')) /\
  ((DropDomainFile files = "" \/ open_lines (DropDomainFile files) = None) ->
     b_listDomainsRegex d' = b_listDomainsRegex d).
Proof.
  unfold LoadDomainsList.
  destruct (0 <? Z.of_nat (String.length (DropFqdnFile files))) eqn:Ef,
           (open_lines (DropFqdnFile files)) as [fl|] eqn:Of,
           (0 <? Z.of_nat (String.length (DropDomainFile files))) eqn:Ed,
           (open_lines (DropDomainFile files)) as [dl|] eqn:Od;
    cbn [b_listQueryIp b_listFqdns b_listDomainsRegex b_dropDomains];
    try (destruct (load_domains MustCompile ToLower dl (b_listDomainsRegex d))
           as [m| |] eqn:Em; cbn [mbind run_bind]; [|done|done]);
    intros [= <-];
    cbn [b_listQueryIp b_listFqdns b_listDomainsRegex b_dropDomains];
    (split; [done|]); (split; [|split; [|split]]).
  all: try (intros lines Hne Hopen);
       try (intros [Hempty | Hnone]);
       try (rewrite length_pos in * by done);
       try (rewrite length_zero in * by done);
       try done; try congruence.
  all: try (injection Hopen as <-); try (split; done).
Qed.

Lemma LoadQueryIpList_fields (files : FilteringFiles) (d d' : Building regexp) :
  LoadQueryIpList ToLower open_lines files d = Done d' ->
  b_listQueryIp d = None ->
  d' = d.
Proof.
  unfold LoadQueryIpList. intros H Hnil.
  destruct (0 <? _); [|by injection H as <-].
  destruct (open_lines _) as [lines|]; [|by injection H as <-].
  rewrite Hnil in H.
  destruct (load_query_ips ToLower lines None) as [m| |] eqn:Em; [|done|done].
  apply load_query_ips_nil in Em as [_ ->]. cbn [mbind run_bind] in H.
  injection H as <-. destruct d. cbn in *. by subst.
Qed.

Lemma New_done (config : FilteringConfig) (files : FilteringFiles)
    (p : FilteringProcessor regexp) :
  New config files = Done p ->
  exists d, LoadDomainsList MustCompile ToLower open_lines files
              (mkBuilding false None ∅ ∅) = Done d /\
            b_listQueryIp d = None /\ p = built config d.
Proof.
  unfold NewFilteringProcessor. cbv zeta.
  destruct (LoadDomainsList _ _ _ files _) as [d| |] eqn:Ed; [|done|done].
  cbn [mbind run_bind].
  destruct (LoadDomainsList_fields _ _ _ Ed) as (Hq & _). cbn in Hq.
  destruct (LoadQueryIpList _ _ files d) as [d'| |] eqn:Eq; [|done|done].
  cbn [mbind run_bind]. intros [= <-].
  apply LoadQueryIpList_fields in Eq; [|done]. subst d'. eauto.
Qed.

(** X20.  The list of query addresses is never filled.  A processor that
    [NewFilteringProcessor] returns has an empty [listQueryIp]; when the
    file of query addresses is configured, opens and has a line, the
    constructor stops with a run-time panic, the map being nil. *)
Theorem NewFilteringProcessor_query_ip_list
    (config : FilteringConfig) (files : FilteringFiles) :
  (forall p, New config files = Done p -> listQueryIp p = ∅) /\
  (forall line lines,
     DropQueryIpFile files <> "" ->
     open_lines (DropQueryIpFile files) = Some (line :: lines) ->
     New config files = Panic).
Proof.
  split.
  - intros p Hp. apply New_done in Hp as (d & _ & Hq & ->).
    unfold built. cbn [listQueryIp]. by rewrite Hq.
  - intros line lines Hne Hopen. unfold NewFilteringProcessor. cbv zeta.
    destruct (LoadDomainsList _ _ _ files _) as [d| |] eqn:Ed; [|done|].
    + cbn [mbind run_bind].
      destruct (LoadDomainsList_fields _ _ _ Ed) as (Hq & _). cbn in Hq.
      unfold LoadQueryIpList. rewrite length_pos, Hopen, Hq by done. done.
    + exfalso. revert Ed. unfold LoadDomainsList.
      repeat match goal with
      | |- context [if ?c then _ else _] => destruct c
      | |- context [match open_lines ?f with _ => _ end] => destruct (open_lines f)
      end; try done.
      all: match goal with
           | |- context [load_domains _ _ ?l ?m] =>
               pose proof (load_domains_has_fuel l m);
               destruct (load_domains MustCompile ToLower l m)
           end; done.
Qed.

(** X21.  A processor built with a readable file of names drops every
    message whose name is the lower-case form of a line of that file. *)
Theorem NewFilteringProcessor_drops_fqdn
    (config : FilteringConfig) (files : FilteringFiles)
    (p : FilteringProcessor regexp) (lines : list string) (line : string)
    (dm : DnsMessage) :
  New config files = Done p ->
  DropFqdnFile files <> "" ->
  open_lines (DropFqdnFile files) = Some lines ->
  line ∈ lines ->
  DNS_Qname dm = ToLower line ->
  Check p dm = true.
Proof.
  intros Hp Hne Hopen Hin Hq. apply New_done in Hp as (d & Hd & _ & ->).
  destruct (LoadDomainsList_fields _ _ _ Hd) as (_ & Hf & _).
  destruct (Hf lines Hne Hopen) as [Hdd Hfq].
  apply CheckIfDrop_rules. do 4 right. cbn [built dropDomains listFqdns].
  split; [done|]. left. rewrite Hfq, Hq. apply load_fqdns_lookup. right. eauto.
Qed.

(** X22.  With a readable file of domain expressions, a line whose
    lower-case form does not compile makes the constructor stop with a
    panic; if the constructor returns, every line compiles and a message
    whose name is matched by the expression of a line is dropped. *)
Theorem NewFilteringProcessor_domain_patterns
    (config : FilteringConfig) (files : FilteringFiles)
    (lines : list string) (line : string) :
  DropDomainFile files <> "" ->
  open_lines (DropDomainFile files) = Some lines ->
  line ∈ lines ->
  (MustCompile (ToLower line) = None -> New config files = Panic) /\
  (forall p, New config files = Done p ->
     exists r, MustCompile (ToLower line) = Some r /\
       forall dm, MatchString r (DNS_Qname dm) = true -> Check p dm = true).
Proof.
  intros Hne Hopen Hin. split.
  - intros Hbad. unfold NewFilteringProcessor, LoadDomainsList. cbv zeta.
    rewrite (length_pos (DropDomainFile files)), Hopen by done.
    by rewrite (load_domains_panic lines _ line).
  - intros p Hp. apply New_done in Hp as (d & Hd & _ & ->).
    destruct (LoadDomainsList_fields _ _ _ Hd) as (_ & _ & _ & Hdom & _).
    destruct (Hdom lines Hne Hopen) as [Hdd Hload].
    destruct (load_domains_lookup _ _ _ line Hload Hin) as (r & Hr & Hlook).
    exists r. split; [done|]. intros dm Hm.
    apply CheckIfDrop_rules. do 4 right. cbn [built dropDomains listDomainsRegex].
    split; [done|]. right. eauto.
Qed.

Lemma LoadDomainsList_no_patterns (files : FilteringFiles) (d : Building regexp) :
  DropDomainFile files = "" \/ open_lines (DropDomainFile files) = None ->
  exists d', LoadDomainsList MustCompile ToLower open_lines files d = Done d'.
Proof.
  intros Hd. unfold LoadDomainsList. destruct Hd as [Hd | Hd].
  - rewrite (length_zero _ Hd). eauto.
  - rewrite Hd. destruct (0 <? Z.of_nat (String.length (DropDomainFile files))); eauto.
Qed.

(** X23.  When the file of names and the file of domain expressions are not
    configured or cannot be opened, and the file of query addresses is not
    configured, cannot be opened or is empty, the constructor returns a
    processor that drops a message exactly when one of the two gates is
    closed for it or its rcode is in [DropRcodes]. *)
Theorem NewFilteringProcessor_without_lists
    (cfg : FilteringConfig) (files : FilteringFiles) :
  DropFqdnFile files = "" \/ open_lines (DropFqdnFile files) = None ->
  DropDomainFile files = "" \/ open_lines (DropDomainFile files) = None ->
  DropQueryIpFile files = "" \/ open_lines (DropQueryIpFile files) = None \/
    open_lines (DropQueryIpFile files) = Some [] ->
  exists p, New cfg files = Done p /\
    forall dm,
      Check p dm = true <->
      (LogQueries cfg = false /\ DNS_Type dm = DnsQuery) \/
      (LogReplies cfg = false /\ DNS_Type dm = DnsReply) \/
      DNS_Rcode dm ∈ DropRcodes cfg.
Proof.
  intros Hf Hd Hq.
  destruct (LoadDomainsList_no_patterns files (mkBuilding false None ∅ ∅) Hd) as [d Ed].
  destruct (LoadDomainsList_fields _ _ _ Ed) as (Hip & _ & Hfq & _ & Hdom).
  specialize (Hfq Hf). specialize (Hdom Hd). cbn in Hip, Hfq, Hdom.
  assert (Hload : LoadQueryIpList ToLower open_lines files d = Done d).
  { unfold LoadQueryIpList. destruct Hq as [Hq | [Hq | Hq]].
    - by rewrite (length_zero _ Hq).
    - rewrite Hq. by destruct (0 <? _).
    - rewrite Hq, Hip. destruct (0 <? _); [|done].
      cbn. destruct d. cbn in *. by subst. }
  exists (built cfg d). split.
  - unfold NewFilteringProcessor. cbv zeta. rewrite Ed. cbn [mbind run_bind].
    by rewrite Hload.
  - intros dm. rewrite CheckIfDrop_rules.
    cbn [built config dropDomains listQueryIp listFqdns listDomainsRegex].
    rewrite Hip, Hfq, Hdom. cbn [default].
    split; [|tauto].
    intros [H|[H|[H|[H|[_ [H|H]]]]]]; try tauto.
    + destruct H as [v Hv]. by rewrite lookup_empty in Hv.
    + destruct H as [v Hv]. by rewrite lookup_empty in Hv.
    + destruct H as (k & r & Hk & _). by rewrite lookup_empty in Hk.
Qed.

End Loading_facts.

Lemma NewFilteringProcessor_query_ip_list_witness :
  NewFilteringProcessor sample_compile sample_lower sample_open sample_config
    (mkFilteringFiles "ips.txt" "" "") = Panic.
Proof.
  apply (proj2 (NewFilteringProcessor_query_ip_list string sample_compile sample_lower
                  sample_open sample_config (mkFilteringFiles "ips.txt" "" ""))
           "192.0.2.1" []).
  - discriminate.
  - reflexivity.
Defined.

Lemma NewFilteringProcessor_drops_fqdn_witness :
  CheckIfDrop sample_match "QUERY" "REPLY"
    (built sample_config (mkBuilding true None
       (<["example.org" := true]> (<["example.com" := true]> ∅)) ∅))
    (mkDnsMessage "QUERY" "NOERROR" "example.org" "192.0.2.1") = true.
Proof.
  apply (NewFilteringProcessor_drops_fqdn string sample_compile sample_lower sample_open
           sample_match "QUERY" "REPLY" sample_config (mkFilteringFiles "" "fqdn.txt" "")
           _ ["example.com"; "example.org"] "example.org").
  - reflexivity.
  - discriminate.
  - reflexivity.
  - apply (bool_decide_unpack _). vm_compute. reflexivity.
  - reflexivity.
Defined.

Lemma NewFilteringProcessor_domain_patterns_witness :
  NewFilteringProcessor sample_compile sample_lower sample_open sample_config
    (mkFilteringFiles "" "" "bad.txt") = Panic.
Proof.
  apply (proj1 (NewFilteringProcessor_domain_patterns string sample_compile sample_lower
                  sample_open sample_match "QUERY" "REPLY" sample_config
                  (mkFilteringFiles "" "" "bad.txt") ["net$"; "("] "("
                  ltac:(discriminate) eq_refl
                  ltac:(apply (bool_decide_unpack _); vm_compute; reflexivity))).
  reflexivity.
Defined.

Lemma NewFilteringProcessor_without_lists_witness :
  exists p,
    NewFilteringProcessor sample_compile sample_lower sample_open sample_config
      (mkFilteringFiles "" "missing.txt" "") = Done p /\
    forall dm,
      CheckIfDrop sample_match "QUERY" "REPLY" p dm = true <->
      (LogQueries sample_config = false /\ DNS_Type dm = "QUERY") \/
      (LogReplies sample_config = false /\ DNS_Type dm = "REPLY") \/
      DNS_Rcode dm ∈ DropRcodes sample_config.
Proof.
  apply (NewFilteringProcessor_without_lists string sample_compile sample_lower
           sample_open sample_match "QUERY" "REPLY" sample_config
           (mkFilteringFiles "" "missing.txt" "")).
  - right. reflexivity.
  - left. reflexivity.
  - left. reflexivity.
Defined.

(** *** Where a name ends, and where the resolver stops *)

(** X1.  A name that [ParseLabels] resolves starts inside the packet, takes at
    least one byte and ends inside the packet: the offset returned is
    greater than the start offset and at most the length of the packet.
    With an error the name returned is empty and the offset is 0. *)
Theorem ParseLabels_offsets (offset : Z) (payload : list byte)
    (name : string) (off : Z) (err : option error) :
  ParseLabels offset payload = Done (name, off, err) ->
  match err with
  | Some _ => name = "" /\ off = 0
  | None => 0 <= offset < off /\ off <= len payload
  end.
Proof.
  intros H. pose proof (ParseLabels_result _ _ _ _ _ H) as Hr.
  destruct err as [e|]; [destruct Hr as [-> ->]; done|].
  destruct Hr as [[Hlo Hlt] Hhi]. repeat split; assumption.
Qed.

Lemma ParseLabels_offsets_witness : 0 <= 12 < 25 /\ 25 <= len sample_message.
Proof.
  apply (ParseLabels_offsets 12 sample_message "example.com" 25 None). reflexivity.
Defined.

(** X2.  [ParseLabels] stops with a run-time panic only when it is started at
    a negative offset or when the name reaches a compression pointer whose
    first byte is the last byte of the packet. *)
Theorem ParseLabels_leaves_the_packet (offset : Z) (payload : list byte) :
  ParseLabels offset payload = Panic ->
  offset < 0 \/ reaches_cut_pointer payload offset.
Proof.
  intros H. destruct (ParseLabels_panic _ _ H) as [Hneg | Hcut].
  - by left.
  - by right.
Qed.

Lemma ParseLabels_leaves_the_packet_witness :
  2 < 0 \/ reaches_cut_pointer [xc0; x04; x01; x61; xc0] 2.
Proof.
  apply (ParseLabels_leaves_the_packet 2 [xc0; x04; x01; x61; xc0]). reflexivity.
Defined.

(** X24.  When [DecodeAnswer] decodes one record into one answer, the name
    of the answer is the owner name that the resolver finds at the start
    offset, and the offset returned is the end of that name plus 10 plus
    the rdlength read 8 bytes after the name. *)
Theorem DecodeAnswer_record_cursor (payload : list byte) (offset off : Z) (a : DnsAnswer) :
  DecodeAnswer 1 offset payload = Done ([a], off, None) ->
  exists name_end : Z,
    ParseLabels offset payload = Done (Name a, name_end, None) /\
    off = name_end + 10 + word16_at payload (Z.to_nat name_end + 8).
Proof.
  intros H. destruct (DecodeAnswer_one_record _ _ _ _ H) as (name_end & Hname & Hoff).
  exists name_end. by split.
Qed.

Lemma DecodeAnswer_record_cursor_witness :
  exists name_end : Z,
    ParseLabels 29 sample_message = Done ("example.com", name_end, None) /\
    45 = name_end + 10 + word16_at sample_message (Z.to_nat name_end + 8).
Proof.
  apply (DecodeAnswer_record_cursor sample_message 29 45
           (mkDnsAnswer "example.com" "A" 1 3600 "93.184.216.34")).
  reflexivity.
Defined.
